(** * webui/src/components/App.tsx: the summary form, its debounce hook and
    its submission handler, embedded in Rocq.

  Strings are byte strings (the UTF-8 text of the source literals), JS
  values are an inductive type, React state is a record threaded through
  the handlers, and an [async] function is a small program tree whose
  [await] points are explicit. *)

From Stdlib Require Import String Ascii List Bool Arith NArith Lia.
From Stdlib Require Import Floats.SpecFloat.
Import ListNotations.
Open Scope string_scope.
Set Warnings "-register-all".

(** ** The JavaScript fragment used by the component *)

Module JS.

(** [String.prototype.startsWith(searchString)] with the position left
    out (so it is 0): ECMA-262 takes the search length, answers [true] for
    an empty search string, [false] when the receiver is too short, and
    otherwise compares the leading substring with the search string. *)
Definition startsWith (s searchString : string) : bool :=
  let len := String.length s in
  let searchLength := String.length searchString in
  if Nat.eqb searchLength 0 then true
  else if Nat.ltb len searchLength then false
  else String.eqb (substring 0 searchLength s) searchString.

(** A value as [JSON.parse] builds it, plus [undefined], which a property
    read gives for a missing field. Numbers are IEEE doubles, kept as the
    Standard Library's [spec_float]. Objects keep their properties in
    insertion order, one entry per key. *)
Inductive value : Type :=
| VUndefined
| VNull
| VBool (b : bool)
| VNum (x : spec_float)
| VStr (s : string)
| VArr (elems : list value)
| VObj (props : list (string * value)).

(** ToBoolean. *)
Definition truthy (v : value) : bool :=
  match v with
  | VUndefined | VNull => false
  | VBool b => b
  | VNum (S754_zero _) | VNum S754_nan => false
  | VNum _ => true
  | VStr s => negb (Nat.eqb (String.length s) 0)
  | VArr _ | VObj _ => true
  end.

(** [a || b] on values. *)
Definition or_else (a b : value) : value := if truthy a then a else b.

Fixpoint lookup (key : string) (props : list (string * value)) : option value :=
  match props with
  | [] => None
  | (k, v) :: rest => if String.eqb k key then Some v else lookup key rest
  end.

(** [v.key] for one of the keys the component reads ([success],
    [summary], [error]; none of them is on a built-in prototype).
    [None] stands for the TypeError that reading a property of [null] or
    [undefined] throws. *)
Definition getProp (v : value) (key : string) : option value :=
  match v with
  | VUndefined | VNull => None
  | VObj props =>
      match lookup key props with
      | Some x => Some x
      | None => Some VUndefined
      end
  | _ => Some VUndefined
  end.

End JS.

(** ** The URL validator (App.tsx, isValidBiliUrl) *)

Definition bili_prefix : string := "https://www.bilibili.com/video".

Definition isValidBiliUrl (url : string) : bool :=
  JS.startsWith url bili_prefix.

(** ** Timers: setTimeout and clearTimeout

    The table of scheduled callbacks. Time is a counter of delay units
    (milliseconds). A callback of the hook below is [() =>
    setDebouncedValue(value)], so a table entry keeps the captured [value]
    as its payload. *)

Module Timers.

Record timer (T : Type) : Type := { tid : nat; due : nat; payload : T }.
Arguments tid {T} _.
Arguments due {T} _.
Arguments payload {T} _.

Record t (T : Type) : Type :=
  { now : nat; next_id : nat; active : list (timer T) }.
Arguments now {T} _.
Arguments next_id {T} _.
Arguments active {T} _.

Definition empty (T : Type) : t T :=
  {| now := 0; next_id := 1; active := [] |}.

(** [setTimeout(cb, delay)]: a fresh id, due [delay] units from now. *)
Definition setTimeout {T} (delay : nat) (v : T) (tm : t T) : nat * t T :=
  let id := next_id tm in
  (id, {| now := now tm;
          next_id := S id;
          active := active tm ++ [{| tid := id; due := now tm + delay; payload := v |}] |}).

(** [clearTimeout(id)]: the entry, if still there, is dropped. *)
Definition clearTimeout {T} (id : nat) (tm : t T) : t T :=
  {| now := now tm;
     next_id := next_id tm;
     active := filter (fun x => negb (Nat.eqb (tid x) id)) (active tm) |}.

Definition is_due {T} (n : nat) (x : timer T) : bool := Nat.leb (due x) n.

(** One unit of time passes. The entries that are due leave the table and
    their payloads are handed back, in scheduling order, for the callbacks
    to run. *)
Definition advance {T} (tm : t T) : list T * t T :=
  let n := S (now tm) in
  (map payload (filter (is_due n) (active tm)),
   {| now := n;
      next_id := next_id tm;
      active := filter (fun x => negb (is_due n x)) (active tm) |}).

End Timers.

(** ** The debounce hook (App.tsx, useDebounce) *)

Module Debounce.

Section Hook.

Variable T : Type.
(** Comparison of an effect dependency with its previous value. *)
Variable T_eqb : T -> T -> bool.

(** The hook's cell of React state ([debouncedValue]), the dependencies
    [value, delay] of the last effect run, the timer id its cleanup closes
    over, and the timer table. *)
Record hook : Type :=
  { value : T;
    delay : nat;
    debouncedValue : T;
    handler : option nat;
    mounted : bool;
    timers : Timers.t T }.

(** The effect body: [const handler = setTimeout(() =>
    setDebouncedValue(value), delay)]. *)
Definition run_effect (v : T) (d : nat) (dv : T) (tm : Timers.t T) : hook :=
  let (id, tm') := Timers.setTimeout d v tm in
  {| value := v; delay := d; debouncedValue := dv;
     handler := Some id; mounted := true; timers := tm' |}.

(** The effect's cleanup: [clearTimeout(handler)]. *)
Definition run_cleanup (h : hook) : Timers.t T :=
  match handler h with
  | Some id => Timers.clearTimeout id (timers h)
  | None => timers h
  end.

(** First render: [useState(value)] starts the cell at [value], then the
    effect runs. *)
Definition mount (v : T) (d : nat) (tm : Timers.t T) : hook :=
  run_effect v d v tm.

(** A later render with arguments [v] and [d]. The effect (cleanup first)
    runs again only when a dependency differs from the previous render. *)
Definition useDebounce (v : T) (d : nat) (h : hook) : hook :=
  if negb (mounted h) then h
  else if T_eqb v (value h) && Nat.eqb d (delay h) then h
  else run_effect v d (debouncedValue h) (run_cleanup h).

(** [setDebouncedValue(v)], a no-op once the component is gone. *)
Definition setDebouncedValue (h : hook) (v : T) : hook :=
  if mounted h then
    {| value := value h; delay := delay h; debouncedValue := v;
       handler := handler h; mounted := mounted h; timers := timers h |}
  else h.

(** One unit of time: the callbacks that are due run. *)
Definition tick (h : hook) : hook :=
  let (fired, tm') := Timers.advance (timers h) in
  fold_left setDebouncedValue fired
    {| value := value h; delay := delay h; debouncedValue := debouncedValue h;
       handler := handler h; mounted := mounted h; timers := tm' |}.

(** Teardown: the cleanup of the last effect runs. *)
Definition unmount (h : hook) : hook :=
  {| value := value h; delay := delay h; debouncedValue := debouncedValue h;
     handler := handler h; mounted := false; timers := run_cleanup h |}.

Inductive event : Type :=
| Render (v : T) (d : nat)
| Tick
| Unmount.

Definition step (h : hook) (e : event) : hook :=
  match e with
  | Render v d => useDebounce v d h
  | Tick => tick h
  | Unmount => unmount h
  end.

Definition run (evs : list event) (h : hook) : hook := fold_left step evs h.

Fixpoint ticks (n : nat) (h : hook) : hook :=
  match n with
  | 0 => h
  | S n' => ticks n' (tick h)
  end.

(** A burst of input changes: each entry [(gap, v)] lets [gap] units pass
    after the previous change and then renders with the new value [v]. *)
Definition burst : Type := list (nat * T).

Fixpoint play (b : burst) (h : hook) : hook :=
  match b with
  | [] => h
  | (gap, v) :: rest => play rest (useDebounce v (delay h) (ticks gap h))
  end.

(** Every state the hook goes through while a burst is played: after each
    unit of time and after each change. *)
Fixpoint tick_states (n : nat) (h : hook) : list hook :=
  match n with
  | 0 => []
  | S n' => tick h :: tick_states n' (tick h)
  end.

Fixpoint play_states (b : burst) (h : hook) : list hook :=
  match b with
  | [] => []
  | (gap, v) :: rest =>
      let h' := useDebounce v (delay h) (ticks gap h) in
      tick_states gap h ++ h' :: play_states rest h'
  end.

(** The values of a burst really change: each differs from the one
    rendered before it. *)
Fixpoint changing (prev : T) (b : burst) : Prop :=
  match b with
  | [] => True
  | (_, v) :: rest => v <> prev /\ changing v rest
  end.

Definition last_value (first : T) (b : burst) : T :=
  last (map snd b) first.

(** The hook is mounted, at most its own timer is pending, and the id it
    holds is one that [setTimeout] has given out. *)
Definition wf (h : hook) : Prop :=
  mounted h = true /\
  Forall (fun x => handler h = Some (Timers.tid x)) (Timers.active (timers h)) /\
  (forall id, handler h = Some id -> id < Timers.next_id (timers h)).

(** The hook waits on one timer, for [v], due in [r] units. *)
Definition armed (h : hook) (id : nat) (v : T) (r : nat) : Prop :=
  mounted h = true /\ handler h = Some id /\ value h = v /\
  id < Timers.next_id (timers h) /\
  Timers.active (timers h) =
    [{| Timers.tid := id; Timers.due := Timers.now (timers h) + r;
        Timers.payload := v |}].

(** No timer is pending. *)
Definition idle (h : hook) : Prop := Timers.active (timers h) = [].

Definition pending (id : nat) (h : hook) : bool :=
  existsb (fun x => Nat.eqb (Timers.tid x) id) (Timers.active (timers h)).

End Hook.

Arguments value {T} _.
Arguments delay {T} _.
Arguments debouncedValue {T} _.
Arguments handler {T} _.
Arguments mounted {T} _.
Arguments timers {T} _.
Arguments mount {T} _ _ _.
Arguments useDebounce {T} _ _ _ _.
Arguments tick {T} _.
Arguments ticks {T} _ _.
Arguments unmount {T} _.
Arguments play {T} _ _ _.
Arguments play_states {T} _ _ _.
Arguments changing {T} _ _.
Arguments last_value {T} _ _.
Arguments wf {T} _.
Arguments armed {T} _ _ _ _.
Arguments idle {T} _.
Arguments pending {T} _ _.
Arguments run {T} _ _ _.
Arguments Render {T} _ _.
Arguments Tick {T}.
Arguments Unmount {T}.

End Debounce.

(** ** JSON.stringify for the request body *)

Module Json.

Definition dquote : ascii := "034"%char.
Definition backslash : ascii := "092"%char.

Definition hex_digit (n : nat) : ascii :=
  if Nat.ltb n 10 then ascii_of_nat (48 + n) else ascii_of_nat (87 + n).

Definition str1 (c : ascii) : string := String c EmptyString.
Definition esc (c : ascii) : string := String backslash (str1 c).

(** QuoteJSONString, one character: the short escapes, [\u00xx] for the
    other control characters, and the character itself otherwise. *)
Definition quote_char (c : ascii) : string :=
  let n := nat_of_ascii c in
  if Nat.eqb n 8 then esc "b"
  else if Nat.eqb n 9 then esc "t"
  else if Nat.eqb n 10 then esc "n"
  else if Nat.eqb n 12 then esc "f"
  else if Nat.eqb n 13 then esc "r"
  else if Nat.eqb n 34 then esc dquote
  else if Nat.eqb n 92 then esc backslash
  else if Nat.ltb n 32 then
    esc "u" ++ "00" ++ str1 (hex_digit (n / 16)) ++ str1 (hex_digit (n mod 16))
  else str1 c.

Fixpoint quote_chars (s : string) : string :=
  match s with
  | EmptyString => EmptyString
  | String c rest => quote_char c ++ quote_chars rest
  end.

Definition quote (s : string) : string :=
  str1 dquote ++ quote_chars s ++ str1 dquote.

Fixpoint members (props : list (string * string)) : string :=
  match props with
  | [] => ""
  | [(k, v)] => quote k ++ ":" ++ quote v
  | (k, v) :: rest => quote k ++ ":" ++ quote v ++ "," ++ members rest
  end.

(** [JSON.stringify] of an object literal whose property values are
    strings. *)
Definition stringify (props : list (string * string)) : string :=
  "{" ++ members props ++ "}".

(** A string that needs no escape, and the same string between quotes as
    it is. *)
Definition plain_char (c : ascii) : bool :=
  let n := nat_of_ascii c in
  Nat.leb 32 n && negb (Nat.eqb n 34) && negb (Nat.eqb n 92).

Fixpoint plain (s : string) : bool :=
  match s with
  | EmptyString => true
  | String c rest => plain_char c && plain rest
  end.

Definition quoted (s : string) : string := str1 dquote ++ s ++ str1 dquote.

End Json.

(** ** Async functions as program trees *)

Module Async.

Inductive exn : Type :=
| FetchRejected      (* the promise of [fetch] rejects *)
| JsonRejected       (* the promise of [response.json()] rejects *)
| TypeError.         (* a property of [null] is read *)

Record request : Type :=
  { endpoint : string;
    method : string;
    headers : list (string * string);
    body : string }.

(** A response, as far as the handler looks at it: what [response.json()]
    settles to ([None] when it rejects). *)
Record response : Type := { json : option JS.value }.

Inductive action : Type :=
| PreventDefault
| SetIsLoading (b : bool)
| SetError (v : JS.value)
| SetSummary (v : JS.value)
| ConsoleError (e : exn).

(** A program either is done, has thrown, performs an action, or is
    suspended at an [await] with the rest of the function as a
    continuation of the settled promise. *)
Inductive prog (A : Type) : Type :=
| Ret (a : A)
| Throw (e : exn)
| Act (a : action) (k : prog A)
| AwaitFetch (r : request) (k : option response -> prog A)
| AwaitJson (resp : response) (k : option JS.value -> prog A).
Arguments Ret {A} _.
Arguments Throw {A} _.
Arguments Act {A} _ _.
Arguments AwaitFetch {A} _ _.
Arguments AwaitJson {A} _ _.

Fixpoint bind {A B} (p : prog A) (f : A -> prog B) : prog B :=
  match p with
  | Ret a => f a
  | Throw e => Throw e
  | Act a k => Act a (bind k f)
  | AwaitFetch r k => AwaitFetch r (fun o => bind (k o) f)
  | AwaitJson resp k => AwaitJson resp (fun o => bind (k o) f)
  end.

(** [try { p } catch (err) { h err }] *)
Fixpoint try_catch {A} (p : prog A) (h : exn -> prog A) : prog A :=
  match p with
  | Ret a => Ret a
  | Throw e => h e
  | Act a k => Act a (try_catch k h)
  | AwaitFetch r k => AwaitFetch r (fun o => try_catch (k o) h)
  | AwaitJson resp k => AwaitJson resp (fun o => try_catch (k o) h)
  end.

(** [try { p } finally { f }]: [f] runs on both exits and the exit of [p]
    is kept. *)
Fixpoint try_finally {A} (p : prog A) (f : prog unit) : prog A :=
  match p with
  | Ret a => bind f (fun _ => Ret a)
  | Throw e => bind f (fun _ => Throw e)
  | Act a k => Act a (try_finally k f)
  | AwaitFetch r k => AwaitFetch r (fun o => try_finally (k o) f)
  | AwaitJson resp k => AwaitJson resp (fun o => try_finally (k o) f)
  end.

Definition act (a : action) : prog unit := Act a (Ret tt).

(** [await fetch(r)] and [await response.json()]: a rejected promise throws
    at the [await]. *)
Definition await_fetch (r : request) : prog response :=
  AwaitFetch r (fun o => match o with Some resp => Ret resp | None => Throw FetchRejected end).

Definition await_json (resp : response) : prog JS.value :=
  AwaitJson resp (fun o => match o with Some v => Ret v | None => Throw JsonRejected end).

(** [v.key] inside a program. *)
Definition get (v : JS.value) (key : string) : prog JS.value :=
  match JS.getProp v key with
  | Some x => Ret x
  | None => Throw TypeError
  end.

End Async.

Declare Scope prog_scope.
Delimit Scope prog_scope with prog.
Notation "x <- p ;; q" := (Async.bind p (fun x => q))
  (at level 61, p at next level, right associativity) : prog_scope.
Notation "p ;; q" := (Async.bind p (fun _ => q))
  (at level 61, right associativity) : prog_scope.

(** ** The component (App.tsx, App) *)

Module App.

Import Async.

(** The five [useState] cells. [summary] and [error] are declared as
    strings, but [setSummary(data.summary)] and [setError(data.error ||
    ...)] store whatever the parsed body holds, so they are values. *)
Record cells : Type :=
  { url : string;
    isLoading : bool;
    summary : JS.value;
    error : JS.value;
    urlError : string }.

Definition setUrl (v : string) (c : cells) : cells :=
  {| url := v; isLoading := isLoading c; summary := summary c;
     error := error c; urlError := urlError c |}.
Definition setIsLoading (b : bool) (c : cells) : cells :=
  {| url := url c; isLoading := b; summary := summary c;
     error := error c; urlError := urlError c |}.
Definition setSummary (v : JS.value) (c : cells) : cells :=
  {| url := url c; isLoading := isLoading c; summary := v;
     error := error c; urlError := urlError c |}.
Definition setError (v : JS.value) (c : cells) : cells :=
  {| url := url c; isLoading := isLoading c; summary := summary c;
     error := v; urlError := urlError c |}.
Definition setUrlError (v : string) (c : cells) : cells :=
  {| url := url c; isLoading := isLoading c; summary := summary c;
     error := error c; urlError := v |}.

(** The messages of the source. *)
Definition msg_url_prefix : string := "URL必须以 https://www.bilibili.com/video 开头".
Definition msg_empty_input : string := "请输入视频URL".
Definition msg_invalid_format : string := "URL格式不正确".
Definition msg_summary_failed : string := "总结失败".
Definition msg_network_failed : string := "网络请求失败，请检查服务器是否运行".

Definition debounce_delay : nat := 300.

(** The validation effect, run when [debouncedUrl] changes (lines 38-44). *)
Definition validationEffect (debouncedUrl : string) (c : cells) : cells :=
  if JS.truthy (JS.VStr debouncedUrl) && negb (isValidBiliUrl debouncedUrl)
  then setUrlError msg_url_prefix c
  else setUrlError "" c.

Definition summary_request (debouncedUrl : string) : request :=
  {| endpoint := "/api/summary_bili";
     method := "POST";
     headers := [("Content-Type", "application/json")];
     body := Json.stringify [("url", debouncedUrl)] |}.

(** The [try] block of the submission handler (lines 65-79). *)
Definition try_block (debouncedUrl : string) : prog unit :=
  (response <- await_fetch (summary_request debouncedUrl) ;;
   data <- await_json response ;;
   success <- get data "success" ;;
   if JS.truthy success then
     s <- get data "summary" ;;
     act (SetSummary s)
   else
     e <- get data "error" ;;
     act (SetError (JS.or_else e (JS.VStr msg_summary_failed))))%prog.

(** Its [catch] block (lines 80-82). *)
Definition catch_block (err : exn) : prog unit :=
  (act (SetError (JS.VStr msg_network_failed)) ;;
   act (ConsoleError err))%prog.

(** Its [finally] block (lines 83-85). *)
Definition finally_block : prog unit := act (SetIsLoading false).

(** The whole [try ... catch ... finally] statement (lines 64-85). *)
Definition try_statement (debouncedUrl : string) : prog unit :=
  try_finally (try_catch (try_block debouncedUrl) catch_block) finally_block.

(** The submission handler (lines 47-86). An early [return] is the end of
    that branch. *)
Definition handleSubmit (debouncedUrl : string) : prog unit :=
  (act PreventDefault ;;
   if negb (JS.truthy (JS.VStr debouncedUrl)) then
     act (SetError (JS.VStr msg_empty_input))
   else if negb (isValidBiliUrl debouncedUrl) then
     act (SetError (JS.VStr msg_invalid_format))
   else
     act (SetIsLoading true) ;;
     act (SetError (JS.VStr "")) ;;
     act (SetSummary (JS.VStr "")) ;;
     try_statement debouncedUrl)%prog.

(** What an action does to the cells. *)
Definition apply_action (a : action) (c : cells) : cells :=
  match a with
  | PreventDefault => c
  | SetIsLoading b => setIsLoading b c
  | SetError v => setError v c
  | SetSummary v => setSummary v c
  | ConsoleError _ => c
  end.

(** What an execution does, in order. *)
Inductive effect : Type :=
| Did (a : action)
| Fetched (r : request)
| ParsedBody (resp : response)
| Uncaught (e : exn).

(** A handler runs until it is done or reaches an [await]; the program
    returned is what is left of it. *)
Fixpoint run_sync (p : prog unit) (c : cells) : cells * list effect * prog unit :=
  match p with
  | Act a k =>
      let '(c', t, rest) := run_sync k (apply_action a c) in
      (c', Did a :: t, rest)
  | Throw e => (c, [Uncaught e], Ret tt)
  | _ => (c, [], p)
  end.

(** A whole execution of a handler, nothing else running in between: every
    [fetch] settles as the server [srv] decides. *)
Fixpoint exec (srv : request -> option response) (p : prog unit) (c : cells)
  : cells * list effect :=
  match p with
  | Ret _ => (c, [])
  | Throw e => (c, [Uncaught e])
  | Act a k =>
      let (c', t) := exec srv k (apply_action a c) in (c', Did a :: t)
  | AwaitFetch r k =>
      let (c', t) := exec srv (k (srv r)) c in (c', Fetched r :: t)
  | AwaitJson resp k =>
      let (c', t) := exec srv (k (json resp)) c in (c', ParsedBody resp :: t)
  end.

Definition is_fetch (e : effect) : bool :=
  match e with Fetched _ => true | _ => false end.
Definition requests (t : list effect) : list request :=
  flat_map (fun e => match e with Fetched r => [r] | _ => [] end) t.
Definition sets_loading (e : effect) : bool :=
  match e with Did (SetIsLoading _) => true | _ => false end.

(** The cells and the effects once both checks have passed, before the
    [try] statement (lines 60-62). *)
Definition started (c : cells) : cells :=
  setSummary (JS.VStr "") (setError (JS.VStr "") (setIsLoading true c)).

Definition start_effects : list effect :=
  [Did PreventDefault; Did (SetIsLoading true); Did (SetError (JS.VStr ""));
   Did (SetSummary (JS.VStr ""))].

(** What the [catch] and [finally] blocks leave behind when the [try] block
    throws [e]. *)
Definition caught (e : exn) (c : cells) : cells * list effect :=
  (setIsLoading false (setError (JS.VStr msg_network_failed) c),
   [Did (SetError (JS.VStr msg_network_failed)); Did (ConsoleError e);
    Did (SetIsLoading false)]).

Definition is_uncaught (e : effect) : bool :=
  match e with Uncaught _ => true | _ => false end.

(** What is on screen (the JSX of lines 88-255, the parts that depend on
    state). A panel written [{x && !isLoading && (...)}] is there when [x]
    is truthy and [isLoading] is false. *)
Record view : Type :=
  { input_value : string;
    input_disabled : bool;
    input_error_style : bool;
    url_error_text : option string;
    submit_disabled : bool;
    submit_label : string;
    spinner : bool;
    error_panel : bool;
    summary_panel : bool }.

Definition render (c : cells) (debouncedUrl : string) : view :=
  {| input_value := url c;
     input_disabled := isLoading c;
     input_error_style := JS.truthy (JS.VStr (urlError c));
     url_error_text :=
       if JS.truthy (JS.VStr (urlError c)) then Some (urlError c) else None;
     submit_disabled :=
       isLoading c || negb (JS.truthy (JS.VStr debouncedUrl))
       || negb (negb (JS.truthy (JS.VStr (urlError c))));
     submit_label := if isLoading c then "处理中..." else "开始总结";
     spinner := isLoading c;
     error_panel := JS.truthy (error c) && negb (isLoading c);
     summary_panel := JS.truthy (summary c) && negb (isLoading c) |}.

(** The four things the result area can show, and the selector as the
    specification words it: the first rule that applies, top down. *)
Inductive panel : Type := Spinner | ErrorPanel | SummaryPanel | NoPanel.

Definition spec_selector (c : cells) : panel :=
  if isLoading c then Spinner
  else if JS.truthy (error c) then ErrorPanel
  else if JS.truthy (summary c) then SummaryPanel
  else NoPanel.

Definition only (p : panel) : list panel :=
  match p with
  | NoPanel => []
  | _ => [p]
  end.

(** The panels a view shows, top to bottom. *)
Definition shown (v : view) : list panel :=
  (if spinner v then [Spinner] else [])
  ++ (if error_panel v then [ErrorPanel] else [])
  ++ (if summary_panel v then [SummaryPanel] else []).

(** The mounted component: its cells, the debounce hook, whether the
    validation effect of the last commit has still to run, and the handlers
    suspended at an [await]. *)
Record component : Type :=
  { st : cells;
    deb : Debounce.hook string;
    effect_due : bool;
    inflight : list (prog unit) }.

Definition debouncedUrl (m : component) : string :=
  Debounce.debouncedValue (deb m).

Definition screen (m : component) : view := render (st m) (debouncedUrl m).

(** First render, then the effects of the mount. *)
Definition init : component :=
  let c := {| url := ""; isLoading := false; summary := JS.VStr "";
              error := JS.VStr ""; urlError := "" |} in
  let h := Debounce.mount "" debounce_delay (Timers.empty string) in
  {| st := validationEffect (Debounce.debouncedValue h) c;
     deb := h;
     effect_due := false;
     inflight := [] |}.

Inductive event : Type :=
| Change (v : string)     (* a keystroke in the input: [onChange] *)
| Tick                    (* one unit of time *)
| FlushEffects            (* React runs the effects left by a commit *)
| Submit                  (* the submit button is activated *)
| RequestSubmit           (* a submit event dispatched on the form itself *)
| FetchSettles (i : nat) (o : option response)
| JsonSettles (i : nat).

Definition park (rest : prog unit) (l : list (prog unit)) : list (prog unit) :=
  match rest with
  | AwaitFetch _ _ | AwaitJson _ _ => l ++ [rest]
  | _ => l
  end.

Fixpoint replace_nth (i : nat) (rest : prog unit) (l : list (prog unit))
  : list (prog unit) :=
  match l, i with
  | [], _ => []
  | _ :: tl, 0 => park rest [] ++ tl
  | x :: tl, S j => x :: replace_nth j rest tl
  end.

(** The validation effect of the last commit, if it has not run yet. An
    effect left by a commit that no user event caused (here: the debounce
    timer) runs some time after the screen is updated, and at the latest
    before the next render. *)
Definition flushEffects (m : component) : component :=
  if effect_due m then
    {| st := validationEffect (debouncedUrl m) (st m);
       deb := deb m; effect_due := false; inflight := inflight m |}
  else m.

(** [handleSubmit] of the current render runs up to its first [await]. *)
Definition submit (m : component) : component :=
  let '(c, _, rest) := run_sync (handleSubmit (debouncedUrl m)) (st m) in
  flushEffects {| st := c; deb := deb m; effect_due := effect_due m;
                  inflight := park rest (inflight m) |}.

Definition resume (i : nat) (p : prog unit) (m : component) : component :=
  let '(c, _, rest) := run_sync p (st m) in
  flushEffects {| st := c; deb := deb m; effect_due := effect_due m;
                  inflight := replace_nth i rest (inflight m) |}.

(** One event. [None] when the event cannot happen in this state: the
    browser delivers no keystroke to a disabled input and does not activate
    a disabled button, and a promise settles only for a handler waiting on
    it. [RequestSubmit] is the submit event itself ([form.requestSubmit()],
    a test dispatching it), which no attribute of the button holds back;
    [handleSubmit] does its own checks. *)
Definition step (m : component) (e : event) : option component :=
  match e with
  | Change v =>
      if input_disabled (screen m) then None
      else
        let m1 := flushEffects m in
        Some {| st := setUrl v (st m1);
                deb := Debounce.useDebounce String.eqb v debounce_delay (deb m1);
                effect_due := false;
                inflight := inflight m1 |}
  | Tick =>
      let h := Debounce.tick (deb m) in
      if String.eqb (Debounce.debouncedValue h) (debouncedUrl m) then
        Some {| st := st m; deb := h; effect_due := effect_due m;
                inflight := inflight m |}
      else
        Some {| st := st (flushEffects m); deb := h; effect_due := true;
                inflight := inflight m |}
  | FlushEffects => Some (flushEffects m)
  | Submit =>
      if submit_disabled (screen m) then None else Some (submit m)
  | RequestSubmit => Some (submit m)
  | FetchSettles i o =>
      match nth_error (inflight m) i with
      | Some (AwaitFetch _ k) => Some (resume i (k o) m)
      | _ => None
      end
  | JsonSettles i =>
      match nth_error (inflight m) i with
      | Some (AwaitJson resp k) => Some (resume i (k (json resp)) m)
      | _ => None
      end
  end.

Fixpoint run (evs : list event) (m : component) : option component :=
  match evs with
  | [] => Some m
  | e :: rest =>
      match step m e with
      | Some m' => run rest m'
      | None => None
      end
  end.

Definition reachable (m : component) : Prop :=
  exists evs, run evs init = Some m.

(** The validation error that belongs to a debounced URL. *)
Definition expected_urlError (d : string) : string :=
  urlError (validationEffect d (st init)).

(** What is left of [handleSubmit] when [fetch] has settled, and when
    [response.json()] has settled. *)
Definition after_fetch (d : string) (o : option response) : prog unit :=
  match try_statement d with
  | AwaitFetch _ k => k o
  | _ => Ret tt
  end.

Definition after_json (d : string) (resp : response) (o : option JS.value)
  : prog unit :=
  match after_fetch d (Some resp) with
  | AwaitJson _ k => k o
  | _ => Ret tt
  end.

(** The programs a submission can leave waiting. *)
Inductive suspended_handler : prog unit -> Prop :=
| waits_fetch (d : string) : suspended_handler (try_statement d)
| waits_json (d : string) (resp : response) :
    suspended_handler (after_fetch d (Some resp)).

Definition handlers_ok (m : component) : Prop :=
  Forall suspended_handler (inflight m).

(** The hook of the component is well formed and has the delay of the
    source. *)
Definition hook_ok (m : component) : Prop :=
  Debounce.wf (deb m) /\ Debounce.delay (deb m) = debounce_delay.

(** When no effect is left to run, the validation error is the one of the
    debounced URL on screen. *)
Definition validated (m : component) : Prop :=
  effect_due m = false -> urlError (st m) = expected_urlError (debouncedUrl m).

(** A session: a valid URL is typed, debounced and submitted with the
    button, the server answers with a summary; then the URL is edited to
    [x], the debounce timer fires, and the button is activated before the
    validation effect of that commit has run. *)
Definition summary_body : JS.value :=
  JS.VObj [("success", JS.VBool true); ("summary", JS.VStr "# Hi")].

Definition session_click : list event :=
  Change "https://www.bilibili.com/video/BV1" :: repeat Tick 300
  ++ [FlushEffects; Submit;
      FetchSettles 0 (Some {| json := Some summary_body |}); JsonSettles 0;
      Change "x"]
  ++ repeat Tick 300 ++ [Submit].

(** The same with the input emptied and the submit event dispatched on the
    form. *)
Definition session_dispatch : list event :=
  Change "https://www.bilibili.com/video/BV1" :: repeat Tick 300
  ++ [FlushEffects; Submit;
      FetchSettles 0 (Some {| json := Some summary_body |}); JsonSettles 0;
      Change ""]
  ++ repeat Tick 300 ++ [FlushEffects; RequestSubmit].

End App.

(** ** Runs of the debounce hook *)

Module DebounceRuns.

Section Runs.

Variable T : Type.

(** The values a run renders with, in order. *)
Fixpoint rendered (evs : list (Debounce.event T)) : list T :=
  match evs with
  | [] => []
  | Debounce.Render v _ :: rest => v :: rendered rest
  | _ :: rest => rendered rest
  end.

(** The value of the last render of a run that starts with [v0]. *)
Definition last_rendered (v0 : T) (evs : list (Debounce.event T)) : T :=
  last (rendered evs) v0.

Definition is_unmount (e : Debounce.event T) : bool :=
  match e with Debounce.Unmount => true | _ => false end.

Definition is_tick (e : Debounce.event T) : bool :=
  match e with Debounce.Tick => true | _ => false end.

Definition count_ticks (evs : list (Debounce.event T)) : nat :=
  length (filter is_tick evs).

(** An event that leaves the dependencies [value, delay] of [h] as they
    are: time passing, or a render with the same arguments (the component
    renders again whenever any of its cells changes). *)
Definition quiet (h : Debounce.hook T) (e : Debounce.event T) : Prop :=
  match e with
  | Debounce.Tick => True
  | Debounce.Render v d => v = Debounce.value h /\ d = Debounce.delay h
  | Debounce.Unmount => False
  end.

(** The hook follows its input: either its one timer is pending for the
    current value, due within the delay, or nothing is pending and the cell
    holds the current value. *)
Definition tracking (h : Debounce.hook T) : Prop :=
  Debounce.wf h /\
  ((exists id r, Debounce.armed h id (Debounce.value h) r /\ r <= Debounce.delay h)
   \/ (Debounce.idle h /\ Debounce.debouncedValue h = Debounce.value h)).

(** The cell and every pending callback hold one of the values [vs]. *)
Definition within (vs : list T) (h : Debounce.hook T) : Prop :=
  In (Debounce.debouncedValue h) vs /\
  Forall (fun x => In (Timers.payload x) vs) (Timers.active (Debounce.timers h)).

End Runs.

Arguments rendered {T} _.
Arguments last_rendered {T} _ _.
Arguments is_unmount {T} _.
Arguments is_tick {T} _.
Arguments count_ticks {T} _.
Arguments quiet {T} _ _.
Arguments tracking {T} _.
Arguments within {T} _ _.

End DebounceRuns.

(** ** How a submission ends *)

Module Submission.

Import Async App.

(** The [try] block throws: [fetch] rejects, the body is not JSON, or the
    body is [null] and reading [data.success] throws. *)
Definition threw (srv : request -> option response) (d : string) : bool :=
  match srv (summary_request d) with
  | None => true
  | Some resp =>
      match json resp with
      | None => true
      | Some data =>
          match JS.getProp data "success" with
          | None => true
          | Some _ => false
          end
      end
  end.

(** The body was read and its [success] is truthy. *)
Definition succeeded (srv : request -> option response) (d : string) : bool :=
  match srv (summary_request d) with
  | None => false
  | Some resp =>
      match json resp with
      | None => false
      | Some data =>
          match JS.getProp data "success" with
          | None => false
          | Some s => JS.truthy s
          end
      end
  end.

Definition logs_console (e : effect) : bool :=
  match e with
  | Did (ConsoleError _) => true
  | _ => false
  end.

End Submission.

(** ** Sessions of the component *)

Module Sessions.

Import Async App.

(** What a submission works on: Loading, Summary, the submission error and
    the handlers waiting. *)
Definition result_state (m : component)
  : bool * JS.value * JS.value * list (prog unit) :=
  (isLoading (st m), summary (st m), error (st m), inflight m).

(** Events other than a submit event dispatched on the form itself: what a
    user at the page can cause. *)
Definition from_page (e : event) : bool :=
  match e with
  | RequestSubmit => false
  | _ => true
  end.

(** Typing, time and the effects: no submission, no settling promise. *)
Definition is_quiet (e : event) : bool :=
  match e with
  | Change _ | Tick | FlushEffects => true
  | _ => false
  end.

Definition is_submit (e : event) : bool :=
  match e with
  | Submit => true
  | _ => false
  end.

(** A run of page events in which the button is only activated once the
    validation effect of the last commit has run. *)
Fixpoint run_settled (evs : list event) (m : component) : option component :=
  match evs with
  | [] => Some m
  | e :: rest =>
      if negb (from_page e) || (is_submit e && effect_due m) then None
      else
        match step m e with
        | Some m' => run_settled rest m'
        | None => None
        end
  end.

(** A session in which the button is used after the effect has run: a
    valid URL is typed, debounced, validated and submitted, and the server
    answers with a summary. *)
Definition session_plain : list event :=
  Change "https://www.bilibili.com/video/BV1" :: repeat Tick 300
  ++ [FlushEffects; Submit;
      FetchSettles 0 (Some {| json := Some summary_body |}); JsonSettles 0].

(** Nothing is in flight and Loading is false, or one handler is in flight
    and Loading is true. *)
Definition single_flight (m : component) : Prop :=
  (inflight m = [] /\ isLoading (st m) = false)
  \/ (exists p, inflight m = [p] /\ suspended_handler p /\
                isLoading (st m) = true).

(** The same, and moreover: while a handler is in flight the error and the
    summary are empty, and otherwise they are not both non-empty. *)
Definition clean_flight (m : component) : Prop :=
  (inflight m = [] /\ isLoading (st m) = false /\
   ~ (JS.truthy (error (st m)) = true /\ JS.truthy (summary (st m)) = true))
  \/ (exists p, inflight m = [p] /\ suspended_handler p /\
                isLoading (st m) = true /\
                error (st m) = JS.VStr "" /\ summary (st m) = JS.VStr "").

End Sessions.

(** ** The markdown components (App.tsx, lines 196-245) *)

Module Markdown.

(** The props object a component is called with. *)
Definition props : Type := list (string * JS.value).

Definition has_key (key : string) (p : props) : bool :=
  match JS.lookup key p with
  | Some _ => true
  | None => false
  end.

(** [({ node, ...props })]: every property but [node]. *)
Definition without (key : string) (p : props) : props :=
  filter (fun kv => negb (String.eqb (fst kv) key)) p.

(** The props of [<tag className=cls {...p} />], that is
    [{ className: cls, ...p }]: a property of [p] replaces the one written
    before the spread. *)
Definition spread_over (given p : props) : props :=
  (p ++ filter (fun kv => negb (has_key (fst kv) p)) given)%list.

Record element : Type := { tag : string; attrs : props }.

Definition styled (name cls : string) (p : props) : element :=
  {| tag := name;
     attrs := spread_over [("className", JS.VStr cls)] (without "node" p) |}.

Definition inline_code_style : string :=
  "bg-gray-100 text-red-600 px-1 py-0.5 rounded text-sm".
Definition block_code_style : string :=
  "block bg-gray-100 p-4 rounded-lg text-sm overflow-x-auto".

(** [props.className], [undefined] when the property is not there. *)
Definition className_of (p : props) : JS.value :=
  match JS.lookup "className" p with
  | Some v => v
  | None => JS.VUndefined
  end.

(** The [code] component (lines 219-232). *)
Definition code (p : props) : element :=
  let props := without "node" p in
  let isInline := negb (JS.truthy (className_of props)) in
  if isInline then
    {| tag := "code";
       attrs := spread_over [("className", JS.VStr inline_code_style)] props |}
  else
    {| tag := "code";
       attrs := spread_over [("className", JS.VStr block_code_style)] props |}.

(** The [components] table. *)
Definition components : list (string * (props -> element)) :=
  [("h1", styled "h1" "text-2xl font-bold mb-4 mt-6");
   ("h2", styled "h2" "text-xl font-bold mb-3 mt-5");
   ("h3", styled "h3" "text-lg font-semibold mb-2 mt-4");
   ("p", styled "p" "mb-4 text-gray-700 leading-relaxed");
   ("ul", styled "ul" "list-disc list-inside mb-4 space-y-2");
   ("ol", styled "ol" "list-decimal list-inside mb-4 space-y-2");
   ("li", styled "li" "text-gray-700");
   ("code", code);
   ("blockquote", styled "blockquote"
      "border-l-4 border-indigo-500 pl-4 italic text-gray-600 my-4");
   ("strong", styled "strong" "font-bold text-gray-900");
   ("em", styled "em" "italic text-gray-700")].

End Markdown.

(** ** Reading a JSON string back

    The inverse of [Json.quote_chars], used to show that the request body
    determines the URL it was made from. *)

Module JsonRead.

Definition hex_value (c : ascii) : nat :=
  let n := nat_of_ascii c in
  if Nat.leb 97 n then n - 87 else n - 48.

Definition is_char (n : nat) (c : ascii) : bool := Nat.eqb (nat_of_ascii c) n.

(** The characters of a string literal up to its closing quote, escapes
    undone; [None] when the literal is not closed or an escape is not one
    that [Json.quote_char] writes. *)
Fixpoint read_chars (s : string) : option string :=
  match s with
  | EmptyString => None
  | String c rest =>
      if is_char 34 c then Some EmptyString
      else if is_char 92 c then
        match rest with
        | String e rest1 =>
            let one (x : nat) :=
              option_map (String (ascii_of_nat x)) (read_chars rest1) in
            if is_char 98 e then one 8
            else if is_char 116 e then one 9
            else if is_char 110 e then one 10
            else if is_char 102 e then one 12
            else if is_char 114 e then one 13
            else if is_char 34 e then one 34
            else if is_char 92 e then one 92
            else if is_char 117 e then
              match rest1 with
              | String _ (String _ (String h (String l rest2))) =>
                  option_map
                    (String (ascii_of_nat (16 * hex_value h + hex_value l)))
                    (read_chars rest2)
              | _ => None
              end
            else None
        | EmptyString => None
        end
      else option_map (String c) (read_chars rest)
  end.

End JsonRead.

(** ** What React makes of the result area

    [App.render] says which of the three guards of lines 143-178 are true.
    What ends up on screen also depends on the values React is handed as
    children: line 171 puts [{error}] in the tree and line 247 hands
    [{summary}] to [ReactMarkdown], and a guard [{x && ...}] whose [x] is
    falsy leaves [x] itself in the tree. *)

Module Paint.

Import App.

(** React takes strings, numbers, booleans, [null], [undefined] and arrays
    of these as children, and throws on an object. *)
Fixpoint child_ok (v : JS.value) : bool :=
  match v with
  | JS.VObj _ => false
  | JS.VArr elems =>
      (fix all (l : list JS.value) : bool :=
         match l with
         | [] => true
         | x :: rest => child_ok x && all rest
         end) elems
  | _ => true
  end.

(** The children that become text: non-empty strings and numbers (0 and
    NaN too); booleans, [null] and [undefined] leave nothing. *)
Fixpoint texts (v : JS.value) : list JS.value :=
  match v with
  | JS.VStr s => if Nat.eqb (String.length s) 0 then [] else [v]
  | JS.VNum _ => [v]
  | JS.VArr elems =>
      (fix go (l : list JS.value) : list JS.value :=
         match l with
         | [] => []
         | x :: rest => (texts x ++ go rest)%list
         end) elems
  | _ => []
  end.

(** The bare text a falsy guard value leaves in the tree: [{x && ...}] is
    [x] itself when [x] is falsy. *)
Definition guard_text (x : JS.value) : list JS.value :=
  if JS.truthy x then [] else texts x.

Definition stray (c : cells) : list JS.value :=
  (guard_text (error c) ++ guard_text (summary c))%list.

(** The result area as painted: the render throws (nothing in this file
    catches it), or it shows some panels and some bare text. *)
Inductive painted : Type :=
| Crashed
| Painted (panels : list panel) (bare : list JS.value).

Section WithMarkdown.

(** [ReactMarkdown] is a library; whether it renders a given [children]
    value or throws on it is taken as a parameter. *)
Variable markdown_renders : JS.value -> bool.

(** The render throws: Loading is false and the error panel is handed an
    object, or the summary panel hands [ReactMarkdown] something it does
    not render. *)
Definition broken (c : cells) : bool :=
  negb (isLoading c)
  && ((JS.truthy (error c) && negb (child_ok (error c)))
      || (JS.truthy (summary c) && negb (markdown_renders (summary c)))).

(** [{isLoading && (...)}], [{error && !isLoading && (...)}] and
    [{summary && !isLoading && (...)}] (lines 143, 154, 178). *)
Definition paint (c : cells) : painted :=
  let spinner_slot := if isLoading c then [Spinner] else [] in
  let error_slot :=
    if JS.truthy (error c) then
      if negb (isLoading c) then
        if child_ok (error c) then Some [ErrorPanel] else None
      else Some []
    else Some [] in
  let summary_slot :=
    if JS.truthy (summary c) then
      if negb (isLoading c) then
        if markdown_renders (summary c) then Some [SummaryPanel] else None
      else Some []
    else Some [] in
  match error_slot, summary_slot with
  | Some pe, Some ps => Painted (spinner_slot ++ pe ++ ps)%list (stray c)
  | _, _ => Crashed
  end.

End WithMarkdown.

(** The panels for the two cells once Loading is false, each on its own
    guard. *)
Definition result_panels (c : cells) : list panel :=
  ((if JS.truthy (error c) then [ErrorPanel] else [])
   ++ (if JS.truthy (summary c) then [SummaryPanel] else []))%list.

(** A library that renders strings, the type [children] is declared
    with, and throws on everything else. *)
Definition strings_only (v : JS.value) : bool :=
  match v with
  | JS.VStr _ => true
  | _ => false
  end.

End Paint.

(** ** Orderly sessions *)

Module Orderly.

Import Async App.

Definition starts_submission (e : event) : bool :=
  match e with
  | Submit | RequestSubmit => true
  | _ => false
  end.

(** No submission is stopped at a check and none is started while another
    is pending: a submit event, from the button or dispatched, only comes
    when the debounced URL passes the validator and Loading is false. *)
Definition may_submit (m : component) : bool :=
  isValidBiliUrl (debouncedUrl m) && negb (isLoading (st m)).

Fixpoint run_orderly (evs : list event) (m : component) : option component :=
  match evs with
  | [] => Some m
  | e :: rest =>
      if starts_submission e && negb (may_submit m) then None
      else
        match step m e with
        | Some m' => run_orderly rest m'
        | None => None
        end
  end.

End Orderly.

(** ** The delays a timer keeps

    [setTimeout] keeps its delay as a signed 32-bit number of milliseconds;
    up to this bound a timer is due [delay] units after it is set, as
    [Timers.setTimeout] has it. *)

Module TimerRange.

Definition max_delay : N := 2147483647%N.

Definition in_range (delay : nat) : Prop := (N.of_nat delay <= max_delay)%N.

End TimerRange.

(** ** Lemmas on strings *)

Section StringFacts.

Lemma substring_append_exact (p t : string) :
  substring 0 (String.length p) (p ++ t) = p.
Proof.
  induction p as [|c p IH]; simpl.
  - destruct t; reflexivity.
  - now rewrite IH.
Qed.

Lemma length_append (p t : string) :
  String.length (p ++ t) = String.length p + String.length t.
Proof. induction p as [|c p IH]; simpl; [reflexivity | now rewrite IH]. Qed.

Lemma substring_split (n : nat) : forall s : string,
  n <= String.length s ->
  s = substring 0 n s ++ substring n (String.length s - n) s.
Proof.
  induction n as [|n IH]; intros s Hn.
  - simpl. rewrite Nat.sub_0_r.
    assert (H0 : forall u : string, substring 0 0 u = "") by (now destruct u).
    rewrite H0. simpl.
    clear. induction s as [|c s IH]; simpl; [reflexivity | now rewrite <- IH].
  - destruct s as [|c s]; simpl in *; [lia|].
    f_equal. apply IH. lia.
Qed.

Lemma startsWith_iff (s p : string) :
  JS.startsWith s p = true <-> exists suffix, s = p ++ suffix.
Proof.
  unfold JS.startsWith.
  destruct (Nat.eqb_spec (String.length p) 0) as [H0 | H0].
  - destruct p; [|discriminate]. split; [|reflexivity].
    intros _. now exists s.
  - destruct (Nat.ltb_spec (String.length s) (String.length p)) as [Hlt | Hge].
    + split; [discriminate|].
      intros [t ->]. rewrite length_append in Hlt. lia.
    + rewrite String.eqb_eq. split.
      * intros E. exists (substring (String.length p) (String.length s - String.length p) s).
        rewrite <- E at 1. now apply substring_split.
      * intros [t ->]. apply substring_append_exact.
Qed.

End StringFacts.

(** C1. [isValidBiliUrl url] is [true] exactly when [url] is the literal
  [https://www.bilibili.com/video] followed by some suffix: every string
  that does not start with the literal gives [false], and the literal
  followed by any suffix gives [true]. *)
Theorem isValidBiliUrl_iff_prefix :
  (forall url : string,
     isValidBiliUrl url = true <->
     exists suffix, url = "https://www.bilibili.com/video" ++ suffix)
  /\ (forall url : string,
        (~ exists suffix, url = "https://www.bilibili.com/video" ++ suffix) ->
        isValidBiliUrl url = false)
  /\ (forall suffix : string,
        isValidBiliUrl ("https://www.bilibili.com/video" ++ suffix) = true).
Proof.
  assert (Hiff : forall url, isValidBiliUrl url = true <->
                   exists suffix, url = bili_prefix ++ suffix)
    by (intros url; apply startsWith_iff).
  split; [exact Hiff|]. split.
  - intros url Hno. destruct (isValidBiliUrl url) eqn:E; [|reflexivity].
    exfalso. apply Hno. now apply Hiff.
  - intros suffix. apply Hiff. now exists suffix.
Qed.

Lemma isValidBiliUrl_iff_prefix_witness :
  isValidBiliUrl "http://www.bilibili.com/video/BV1" = false.
Proof.
  apply (proj1 (proj2 isValidBiliUrl_iff_prefix)).
  intros [suffix H]. simpl in H. discriminate H.
Defined.

(** The validator on a few inputs: the bare literal, a shortened one, other
    letter case, a leading blank. *)
Example isValidBiliUrl_literal :
  isValidBiliUrl "https://www.bilibili.com/video" = true.
Proof. reflexivity. Qed.

Example isValidBiliUrl_short :
  isValidBiliUrl "https://www.bilibili.com/vide" = false.
Proof. reflexivity. Qed.

Example isValidBiliUrl_case :
  isValidBiliUrl "HTTPS://www.bilibili.com/video/BV1" = false.
Proof. reflexivity. Qed.

Example isValidBiliUrl_blank :
  isValidBiliUrl " https://www.bilibili.com/video/BV1" = false.
Proof. reflexivity. Qed.

(** ** The debounce hook *)

Section DebounceFacts.

Import Debounce.

Variable T : Type.
Variable T_eqb : T -> T -> bool.
Hypothesis T_eqb_eq : forall a b, T_eqb a b = true <-> a = b.

Lemma T_eqb_neq (a b : T) : a <> b -> T_eqb a b = false.
Proof.
  intros Hne. destruct (T_eqb a b) eqn:E; [|reflexivity].
  apply T_eqb_eq in E. contradiction.
Qed.

Lemma armed_wf (h : Debounce.hook T) id v r : armed h id v r -> wf h.
Proof.
  intros (Hm & Hh & _ & Hlt & Ha). repeat split.
  - exact Hm.
  - rewrite Ha. constructor; [exact Hh | constructor].
  - intros id' E. rewrite Hh in E. injection E as <-. exact Hlt.
Qed.

Lemma cleanup_clears (h : Debounce.hook T) :
  wf h -> Timers.active (run_cleanup T h) = [].
Proof.
  intros (_ & Hall & _). unfold run_cleanup.
  destruct (handler h) as [id|] eqn:Hh.
  - simpl. induction Hall as [|x l Hx _ IH]; [reflexivity|].
    simpl. injection Hx as ->. rewrite Nat.eqb_refl. simpl. exact IH.
  - destruct Hall as [|x l Hx _]; [reflexivity | discriminate Hx].
Qed.

Lemma cleanup_clock (h : Debounce.hook T) :
  Timers.now (run_cleanup T h) = Timers.now (timers h) /\
  Timers.next_id (run_cleanup T h) = Timers.next_id (timers h).
Proof. unfold run_cleanup. destruct (handler h); split; reflexivity. Qed.

(** A render with a new value cancels what was pending and arms one timer
    for the new value; the cell is left alone. *)
Lemma useDebounce_arms (h : Debounce.hook T) (v : T) (d : nat) :
  wf h -> v <> value h ->
  armed (useDebounce T_eqb v d h) (Timers.next_id (timers h)) v d /\
  debouncedValue (useDebounce T_eqb v d h) = debouncedValue h /\
  delay (useDebounce T_eqb v d h) = d.
Proof.
  intros Hwf Hne. pose proof Hwf as (Hm & _).
  unfold useDebounce. rewrite Hm. simpl.
  rewrite (T_eqb_neq _ _ Hne). simpl.
  unfold run_effect, Timers.setTimeout.
  destruct (cleanup_clock h) as [Hnow Hnext].
  rewrite (cleanup_clears h Hwf), Hnow, Hnext.
  unfold armed. simpl. repeat split. lia.
Qed.

(** Time passing while the timer is not yet due. *)
Lemma tick_armed_wait (h : Debounce.hook T) id v r :
  armed h id v (S (S r)) ->
  armed (tick h) id v (S r) /\ debouncedValue (tick h) = debouncedValue h /\
  delay (tick h) = delay h.
Proof.
  intros (Hm & Hh & Hv & Hlt & Ha).
  unfold tick, Timers.advance, Timers.is_due. rewrite Ha. simpl.
  replace (Nat.leb (Timers.now (timers h) + S (S r)) (S (Timers.now (timers h))))
    with false by (symmetry; apply Nat.leb_gt; lia).
  simpl. repeat split; try assumption.
  simpl. do 2 f_equal. lia.
Qed.

(** The unit of time at which the timer is due: the cell takes the value
    the callback captured. *)
Lemma tick_armed_fire (h : Debounce.hook T) id v :
  armed h id v 1 ->
  debouncedValue (tick h) = v /\ idle (tick h) /\ delay (tick h) = delay h /\
  mounted (tick h) = true.
Proof.
  intros (Hm & Hh & Hv & Hlt & Ha).
  unfold tick, Timers.advance, Timers.is_due, idle. rewrite Ha. simpl.
  replace (Nat.leb (Timers.now (timers h) + 1) (S (Timers.now (timers h))))
    with true by (symmetry; apply Nat.leb_le; lia).
  simpl. unfold setDebouncedValue. simpl. rewrite Hm. simpl. auto.
Qed.

Lemma tick_idle (h : Debounce.hook T) :
  idle h -> idle (tick h) /\ debouncedValue (tick h) = debouncedValue h.
Proof.
  unfold idle, tick, Timers.advance. intros ->. simpl. auto.
Qed.

Lemma ticks_idle (k : nat) : forall h : Debounce.hook T,
  idle h -> debouncedValue (ticks k h) = debouncedValue h.
Proof.
  induction k as [|k IH]; intros h Hi; [reflexivity|].
  simpl. destruct (tick_idle h Hi) as [Hi' E]. now rewrite IH.
Qed.

Lemma ticks_armed_lt (k : nat) : forall (h : Debounce.hook T) id v r,
  armed h id v (k + S r) ->
  armed (ticks k h) id v (S r) /\
  debouncedValue (ticks k h) = debouncedValue h /\
  delay (ticks k h) = delay h /\
  Forall (fun h' => debouncedValue h' = debouncedValue h) (tick_states T k h).
Proof.
  induction k as [|k IH]; intros h id v r Ha.
  - simpl in *. split; [exact Ha|]. repeat split. constructor.
  - simpl in Ha. destruct (tick_armed_wait h id v (k + r)) as (Ha' & Ed & El).
    { replace (S (S (k + r))) with (S (k + S r)) by lia. exact Ha. }
    replace (S (k + r)) with (k + S r) in Ha' by lia.
    destruct (IH (tick h) id v r Ha') as (Ha2 & Ed2 & El2 & Hall).
    simpl. split; [exact Ha2|]. split; [congruence|]. split; [congruence|].
    constructor; [exact Ed|].
    eapply Forall_impl; [|exact Hall]. simpl. intros h' E. congruence.
Qed.

Lemma ticks_armed_ge (h : Debounce.hook T) id v r k :
  armed h id v (S r) -> S r <= k -> debouncedValue (ticks k h) = v.
Proof.
  intros Ha Hk.
  replace k with (r + S (k - S r)) by lia.
  assert (Hsplit : forall a b (x : Debounce.hook T), ticks (a + b) x = ticks b (ticks a x)).
  { induction a as [|a IHa]; intros b x; simpl; [reflexivity | apply IHa]. }
  rewrite Hsplit.
  replace (S r) with (r + 1) in Ha by lia.
  destruct (ticks_armed_lt r h id v 0 Ha) as (Ha' & _).
  simpl. destruct (tick_armed_fire _ id v Ha') as (Ev & Hi & _).
  rewrite ticks_idle; assumption.
Qed.

Lemma last_cons_default (a : T) (l : list T) (d : T) :
  last (a :: l) d = last l a.
Proof.
  revert a d. induction l as [|b l IH]; intros a d; [reflexivity|].
  change (last (a :: b :: l) d) with (last (b :: l) d).
  rewrite IH. symmetry. apply IH.
Qed.

(** A burst played on an armed hook: the cell never moves, and at the end
    the hook is armed for the last value with the full delay ahead. *)
Lemma play_armed (rest : burst T) : forall (h : Debounce.hook T) id v d,
  armed h id v d -> delay h = d -> 0 < d ->
  changing v rest -> Forall (fun gv => fst gv < d) rest ->
  (exists id', armed (play T_eqb rest h) id' (last_value v rest) d) /\
  debouncedValue (play T_eqb rest h) = debouncedValue h /\
  delay (play T_eqb rest h) = d /\
  Forall (fun h' => debouncedValue h' = debouncedValue h)
         (play_states T_eqb rest h).
Proof.
  induction rest as [|[gap v'] rest IH]; intros h id v d Ha Hd Hpos Hch Hgaps.
  - simpl. split; [now exists id|]. repeat split; [exact Hd | constructor].
  - destruct Hch as [Hne Hch]. inversion Hgaps as [|x l Hgap Hgaps']; subst x l.
    simpl in Hgap.
    replace d with (gap + S (d - gap - 1)) in Ha by lia.
    destruct (ticks_armed_lt gap h id v _ Ha) as (Ha1 & Ed1 & El1 & Hall1).
    assert (Hval : value (ticks gap h) = v) by (destruct Ha1 as (_ & _ & E & _); exact E).
    destruct (useDebounce_arms (ticks gap h) v' d (armed_wf _ _ _ _ Ha1))
      as (Ha2 & Ed2 & El2); [now rewrite Hval|].
    destruct (IH _ _ v' d Ha2 El2 Hpos Hch Hgaps') as ([id' Ha3] & Ed3 & El3 & Hall3).
    simpl. rewrite Hd.
    split.
    { exists id'. unfold last_value in *. simpl map.
      rewrite last_cons_default. exact Ha3. }
    split; [congruence|]. split; [exact El3|].
    apply Forall_app. split; [exact Hall1|].
    constructor; [congruence|].
    eapply Forall_impl; [|exact Hall3]. simpl. intros h' E. congruence.
Qed.

Lemma unmount_idle (h : Debounce.hook T) : wf h -> idle (unmount h).
Proof. intros Hwf. unfold idle, unmount. simpl. now apply cleanup_clears. Qed.

(** States reached from a mount by renders and time are well formed. *)
Lemma wf_mount (v : T) (d : nat) (tm : Timers.t T) :
  Timers.active tm = [] -> wf (mount v d tm).
Proof.
  intros E. unfold mount, run_effect, wf. simpl. rewrite E. simpl.
  repeat split.
  - constructor; [reflexivity | constructor].
  - intros id H. injection H as <-. lia.
Qed.

Lemma wf_tick (h : Debounce.hook T) : wf h -> wf (tick h).
Proof.
  intros (Hm & Hall & Hid).
  unfold tick, Timers.advance.
  set (n := S (Timers.now (timers h))).
  assert (Hfold : forall (l : list T) (x : Debounce.hook T),
             mounted (fold_left (setDebouncedValue T) l x) = mounted x /\
             handler (fold_left (setDebouncedValue T) l x) = handler x /\
             timers (fold_left (setDebouncedValue T) l x) = timers x).
  { induction l as [|a l IHl]; intros x; simpl; [auto|].
    destruct (IHl (setDebouncedValue T x a)) as (E1 & E2 & E3).
    rewrite E1, E2, E3. unfold setDebouncedValue.
    destruct (mounted x) eqn:Em; simpl; auto. }
  match goal with |- wf (fold_left _ ?l ?x) =>
    destruct (Hfold l x) as (E1 & E2 & E3) end.
  unfold wf. rewrite E1, E2, E3. simpl. repeat split.
  - exact Hm.
  - apply Forall_forall. intros x Hx. apply filter_In in Hx.
    rewrite Forall_forall in Hall. apply Hall. tauto.
  - exact Hid.
Qed.

Lemma wf_useDebounce (h : Debounce.hook T) (v : T) (d : nat) :
  wf h -> wf (useDebounce T_eqb v d h).
Proof.
  intros Hwf. unfold useDebounce.
  destruct (negb (mounted h)); [exact Hwf|].
  destruct (T_eqb v (value h) && Nat.eqb d (delay h)) eqn:E; [exact Hwf|].
  unfold run_effect, Timers.setTimeout.
  destruct (cleanup_clock h) as [Hnow Hnext].
  unfold wf. simpl. rewrite (cleanup_clears h Hwf). simpl. repeat split.
  - constructor; [reflexivity | constructor].
  - intros id H. injection H as <-. lia.
Qed.

End DebounceFacts.

(** C8. A burst of input changes, each less than the delay after the one
    before it (300 units in the component, any positive delay here), played
    on a mounted hook: in every state during the burst the debounced value
    is still the one from before the burst, it stays so until the input has
    been stable for the whole delay, from then on it is the last value of
    the burst, the timer pending at a change is no longer scheduled after
    it, and after a teardown nothing is scheduled and the debounced value
    never moves again. *)
Theorem useDebounce_adopts_only_last_value
    (T : Type) (T_eqb : T -> T -> bool)
    (T_eqb_eq : forall a b, T_eqb a b = true <-> a = b)
    (h0 : Debounce.hook T) (v1 : T) (rest : Debounce.burst T) :
  Debounce.wf h0 ->
  0 < Debounce.delay h0 ->
  v1 <> Debounce.value h0 ->
  Debounce.changing v1 rest ->
  Forall (fun gv => fst gv < Debounce.delay h0) rest ->
  let d := Debounce.delay h0 in
  let h1 := Debounce.useDebounce T_eqb v1 d h0 in
  let hn := Debounce.play T_eqb rest h1 in
  Forall (fun h => Debounce.debouncedValue h = Debounce.debouncedValue h0)
         (h1 :: Debounce.play_states T_eqb rest h1)
  /\ (forall k, k < d ->
        Debounce.debouncedValue (Debounce.ticks k hn) = Debounce.debouncedValue h0)
  /\ (forall k, d <= k ->
        Debounce.debouncedValue (Debounce.ticks k hn) = Debounce.last_value v1 rest)
  /\ (forall id, Debounce.handler h0 = Some id -> Debounce.pending id h1 = false)
  /\ Timers.active (Debounce.timers (Debounce.unmount hn)) = []
  /\ (forall k, Debounce.debouncedValue (Debounce.ticks k (Debounce.unmount hn))
                = Debounce.debouncedValue h0).
Proof.
  intros Hwf Hpos Hne Hch Hgaps d h1 hn.
  destruct (useDebounce_arms T T_eqb T_eqb_eq h0 v1 d Hwf Hne) as (Ha1 & Ed1 & El1).
  fold h1 in Ha1, Ed1, El1.
  destruct (play_armed T T_eqb T_eqb_eq rest h1 _ v1 d Ha1 El1 Hpos Hch Hgaps)
    as ([idn Han] & Edn & Eln & Halln).
  fold hn in Han, Edn, Eln.
  split.
  { constructor; [exact Ed1|].
    eapply Forall_impl; [|exact Halln]. simpl. intros h E. congruence. }
  split.
  { intros k Hk.
    replace d with (k + S (d - k - 1)) in Han by lia.
    destruct (ticks_armed_lt T k hn idn _ _ Han) as (_ & E & _). congruence. }
  split.
  { intros k Hk.
    replace d with (S (d - 1)) in Han by (unfold d in *; lia).
    apply (ticks_armed_ge T hn idn _ (d - 1) k Han). unfold d in *; lia. }
  split.
  { intros id Hid. destruct Hwf as (_ & _ & Hfresh).
    specialize (Hfresh id Hid).
    destruct Ha1 as (_ & _ & _ & _ & Hact).
    unfold Debounce.pending. rewrite Hact. simpl.
    replace (Nat.eqb (Timers.next_id (Debounce.timers h0)) id) with false; [reflexivity|].
    symmetry. apply Nat.eqb_neq. lia. }
  pose proof (unmount_idle T hn (armed_wf T hn _ _ _ Han)) as Hidle.
  split; [exact Hidle|].
  intros k. rewrite (ticks_idle T k _ Hidle). simpl. congruence.
Qed.

Lemma useDebounce_adopts_only_last_value_witness :
  Debounce.debouncedValue
    (Debounce.ticks 300
       (Debounce.play String.eqb [(100, "ab"); (299, "abc")]
          (Debounce.useDebounce String.eqb "a" 300
             (Debounce.mount "" 300 (Timers.empty string)))))
  = "abc".
Proof.
  refine (proj1 (proj2 (proj2
    (useDebounce_adopts_only_last_value string String.eqb String.eqb_eq
       (Debounce.mount "" 300 (Timers.empty string)) "a"
       [(100, "ab"); (299, "abc")] _ _ _ _ _))) 300 _).
  - apply wf_mount. reflexivity.
  - simpl. lia.
  - simpl. discriminate.
  - simpl. repeat split; discriminate.
  - repeat constructor; simpl; lia.
  - simpl. lia.
Defined.

(** ** The submission handler *)

Section HandlerFacts.

Import Async App.

Lemma truthy_str (d : string) : JS.truthy (JS.VStr d) = true <-> d <> "".
Proof. destruct d; simpl; split; intros H; congruence. Qed.

Lemma truthy_str_false (d : string) : JS.truthy (JS.VStr d) = false <-> d = "".
Proof. destruct d; simpl; split; intros H; congruence. Qed.

(** A property read that works for one key works for every key. *)
Lemma getProp_defined (data : JS.value) (k k' : string) (x : JS.value) :
  JS.getProp data k = Some x -> exists y, JS.getProp data k' = Some y.
Proof.
  destruct data; simpl; try discriminate; intros _; eauto.
  destruct (JS.lookup k' props); eauto.
Qed.

Lemma handleSubmit_empty :
  handleSubmit "" =
  Act PreventDefault (Act (SetError (JS.VStr msg_empty_input)) (Ret tt)).
Proof. reflexivity. Qed.

Lemma handleSubmit_invalid (d : string) :
  d <> "" -> isValidBiliUrl d = false ->
  handleSubmit d =
  Act PreventDefault (Act (SetError (JS.VStr msg_invalid_format)) (Ret tt)).
Proof.
  intros Hne Hbad. apply truthy_str in Hne.
  unfold handleSubmit. rewrite Hne, Hbad. reflexivity.
Qed.

Lemma handleSubmit_valid (d : string) :
  d <> "" -> isValidBiliUrl d = true ->
  handleSubmit d =
  Act PreventDefault
    (Act (SetIsLoading true)
       (Act (SetError (JS.VStr ""))
          (Act (SetSummary (JS.VStr "")) (try_statement d)))).
Proof.
  intros Hne Hok. apply truthy_str in Hne.
  unfold handleSubmit. rewrite Hne, Hok. reflexivity.
Qed.

Variable srv : request -> option response.

Lemma exec_fetch_rejected (d : string) (c : cells) :
  srv (summary_request d) = None ->
  exec srv (try_statement d) c =
  (fst (caught FetchRejected c),
   Fetched (summary_request d) :: snd (caught FetchRejected c)).
Proof.
  intros Hs. unfold try_statement, try_block, await_fetch. simpl. rewrite Hs. reflexivity.
Qed.

Lemma exec_json_rejected (d : string) (c : cells) (resp : response) :
  srv (summary_request d) = Some resp -> json resp = None ->
  exec srv (try_statement d) c =
  (fst (caught JsonRejected c),
   Fetched (summary_request d) :: ParsedBody resp :: snd (caught JsonRejected c)).
Proof.
  intros Hs Hj. unfold try_statement, try_block, await_fetch. simpl. rewrite Hs. simpl.
  rewrite Hj. reflexivity.
Qed.

Lemma exec_null_body (d : string) (c : cells) (resp : response) (data : JS.value) :
  srv (summary_request d) = Some resp -> json resp = Some data ->
  JS.getProp data "success" = None ->
  exec srv (try_statement d) c =
  (fst (caught TypeError c),
   Fetched (summary_request d) :: ParsedBody resp :: snd (caught TypeError c)).
Proof.
  intros Hs Hj Hg. unfold try_statement, try_block, await_fetch. simpl. rewrite Hs. simpl.
  rewrite Hj. simpl. unfold get. rewrite Hg. reflexivity.
Qed.

Lemma exec_success (d : string) (c : cells) resp data s sm :
  srv (summary_request d) = Some resp -> json resp = Some data ->
  JS.getProp data "success" = Some s -> JS.truthy s = true ->
  JS.getProp data "summary" = Some sm ->
  exec srv (try_statement d) c =
  (setIsLoading false (setSummary sm c),
   [Fetched (summary_request d); ParsedBody resp; Did (SetSummary sm);
    Did (SetIsLoading false)]).
Proof.
  intros Hs Hj Hg Ht Hsm. unfold try_statement, try_block, await_fetch. simpl.
  rewrite Hs. simpl. rewrite Hj. simpl. unfold get. rewrite Hg. simpl.
  rewrite Ht, Hsm. reflexivity.
Qed.

Lemma exec_failure (d : string) (c : cells) resp data s e :
  srv (summary_request d) = Some resp -> json resp = Some data ->
  JS.getProp data "success" = Some s -> JS.truthy s = false ->
  JS.getProp data "error" = Some e ->
  exec srv (try_statement d) c =
  (setIsLoading false
     (setError (JS.or_else e (JS.VStr msg_summary_failed)) c),
   [Fetched (summary_request d); ParsedBody resp;
    Did (SetError (JS.or_else e (JS.VStr msg_summary_failed)));
    Did (SetIsLoading false)]).
Proof.
  intros Hs Hj Hg Ht He. unfold try_statement, try_block, await_fetch. simpl.
  rewrite Hs. simpl. rewrite Hj. simpl. unfold get. rewrite Hg. simpl.
  rewrite Ht, He. reflexivity.
Qed.

Lemma exec_handleSubmit_valid (d : string) (c : cells) :
  d <> "" -> isValidBiliUrl d = true ->
  exec srv (handleSubmit d) c =
  (fst (exec srv (try_statement d) (started c)),
   (start_effects ++ snd (exec srv (try_statement d) (started c)))%list).
Proof.
  intros Hne Hok. rewrite (handleSubmit_valid d Hne Hok).
  cbn [exec apply_action]. fold (started c).
  destruct (exec srv (try_statement d) (started c)) as [c' t]. reflexivity.
Qed.

(** However the request ends, the [try] statement ends with the [finally]
    block, nothing escapes it, and exactly one request has been made. *)
Lemma exec_try_statement (d : string) (c : cells) :
  exists c1 t,
    exec srv (try_statement d) c =
      (setIsLoading false c1,
       (Fetched (summary_request d) :: t ++ [Did (SetIsLoading false)])%list) /\
    requests t = [] /\ existsb is_uncaught t = false.
Proof.
  destruct (srv (summary_request d)) as [resp|] eqn:Hs.
  2:{ rewrite (exec_fetch_rejected d c Hs). simpl.
      eexists; exists [Did (SetError (JS.VStr msg_network_failed));
                         Did (ConsoleError FetchRejected)].
      repeat split. }
  destruct (json resp) as [data|] eqn:Hj.
  2:{ rewrite (exec_json_rejected d c resp Hs Hj). simpl.
      eexists; exists [ParsedBody resp; Did (SetError (JS.VStr msg_network_failed));
                         Did (ConsoleError JsonRejected)].
      repeat split. }
  destruct (JS.getProp data "success") as [s|] eqn:Hg.
  2:{ rewrite (exec_null_body d c resp data Hs Hj Hg). simpl.
      eexists; exists [ParsedBody resp; Did (SetError (JS.VStr msg_network_failed));
                         Did (ConsoleError TypeError)].
      repeat split. }
  destruct (JS.truthy s) eqn:Ht.
  - destruct (getProp_defined data "success" "summary" s Hg) as [sm Hsm].
    rewrite (exec_success d c resp data s sm Hs Hj Hg Ht Hsm).
    eexists; exists [ParsedBody resp; Did (SetSummary sm)]. repeat split.
  - destruct (getProp_defined data "success" "error" s Hg) as [e He].
    rewrite (exec_failure d c resp data s e Hs Hj Hg Ht He).
    eexists; exists [ParsedBody resp;
                       Did (SetError (JS.or_else e (JS.VStr msg_summary_failed)))].
    repeat split.
Qed.

End HandlerFacts.

(** C2. Submitting with an empty debounced URL stores the empty-input
    message as the submission error and does nothing else; with a non-empty
    debounced URL that fails the validator it stores the invalid-format
    message and does nothing else. In both cases no request is made and
    Loading is not set. The empty check comes first: the empty string also
    fails the validator, and gets the empty-input message. *)
Theorem handleSubmit_aborts_on_bad_input
    (srv : Async.request -> option Async.response) (c : App.cells) :
  App.exec srv (App.handleSubmit "") c =
    (App.setError (JS.VStr App.msg_empty_input) c,
     [App.Did Async.PreventDefault;
      App.Did (Async.SetError (JS.VStr App.msg_empty_input))])
  /\ (forall d : string,
        d <> "" -> isValidBiliUrl d = false ->
        App.exec srv (App.handleSubmit d) c =
          (App.setError (JS.VStr App.msg_invalid_format) c,
           [App.Did Async.PreventDefault;
            App.Did (Async.SetError (JS.VStr App.msg_invalid_format))]))
  /\ (forall d : string,
        d = "" \/ isValidBiliUrl d = false ->
        App.requests (snd (App.exec srv (App.handleSubmit d) c)) = [] /\
        existsb App.sets_loading (snd (App.exec srv (App.handleSubmit d) c)) = false /\
        App.isLoading (fst (App.exec srv (App.handleSubmit d) c)) = App.isLoading c)
  /\ isValidBiliUrl "" = false
  /\ App.msg_empty_input <> App.msg_invalid_format.
Proof.
  assert (Hbad : forall d, d <> "" -> isValidBiliUrl d = false ->
            App.exec srv (App.handleSubmit d) c =
              (App.setError (JS.VStr App.msg_invalid_format) c,
               [App.Did Async.PreventDefault;
                App.Did (Async.SetError (JS.VStr App.msg_invalid_format))])).
  { intros d Hne Hv. rewrite (handleSubmit_invalid d Hne Hv). reflexivity. }
  split; [reflexivity|]. split; [exact Hbad|]. split.
  - intros d Hd.
    destruct (string_dec d "") as [-> | Hne].
    + repeat split.
    + destruct Hd as [Hd | Hd]; [contradiction|].
      rewrite (Hbad d Hne Hd). repeat split.
  - split; [reflexivity | discriminate].
Qed.

Lemma handleSubmit_aborts_on_bad_input_witness :
  App.exec (fun _ => None) (App.handleSubmit "bilibili.com/video/BV1") (App.st App.init) =
    (App.setError (JS.VStr App.msg_invalid_format) (App.st App.init),
     [App.Did Async.PreventDefault;
      App.Did (Async.SetError (JS.VStr App.msg_invalid_format))]).
Proof.
  apply (proj1 (proj2 (handleSubmit_aborts_on_bad_input (fun _ => None) (App.st App.init)))).
  - discriminate.
  - reflexivity.
Defined.

(** C10. A submission that stops at one of the two checks changes the
    submission error and nothing else: Loading, Summary, the input URL and
    the validation error are as before, so a summary that was there is
    still there. *)
Theorem aborted_submit_changes_only_error
    (srv : Async.request -> option Async.response) (c : App.cells) (d : string) :
  d = "" \/ isValidBiliUrl d = false ->
  let c' := fst (App.exec srv (App.handleSubmit d) c) in
  App.isLoading c' = App.isLoading c
  /\ App.summary c' = App.summary c
  /\ App.url c' = App.url c
  /\ App.urlError c' = App.urlError c
  /\ c' = App.setError (App.error c') c
  /\ (JS.truthy (App.summary c) = true -> JS.truthy (App.summary c') = true).
Proof.
  intros Hd c'.
  assert (E : c' = App.setError (JS.VStr App.msg_empty_input) c \/
              c' = App.setError (JS.VStr App.msg_invalid_format) c).
  { unfold c'. destruct (string_dec d "") as [-> | Hne].
    - left. reflexivity.
    - right. destruct Hd as [Hd | Hd]; [contradiction|].
      rewrite (handleSubmit_invalid d Hne Hd). reflexivity. }
  destruct E as [-> | ->]; simpl; repeat split; auto.
Qed.

Lemma aborted_submit_changes_only_error_witness :
  JS.truthy
    (App.summary
       (fst (App.exec (fun _ => None) (App.handleSubmit "")
               (App.setSummary (JS.VStr "# Hi") (App.st App.init))))) = true.
Proof.
  refine (proj2 (proj2 (proj2 (proj2 (proj2
    (aborted_submit_changes_only_error (fun _ => None)
       (App.setSummary (JS.VStr "# Hi") (App.st App.init)) "" _))))) _).
  - left. reflexivity.
  - reflexivity.
Defined.

(** C3. After both checks have passed: a body whose [success] is truthy has
    its [summary] stored as Summary and the submission error is left
    empty; a body whose [success] is falsy has its [error], or the fallback
    failure message when that is falsy, stored as the submission error and
    Summary is left empty; when [fetch] or the JSON parse throws, the
    network-failure message is stored as the submission error. *)
Theorem handleSubmit_stores_response
    (srv : Async.request -> option Async.response) (c : App.cells) (d : string) :
  d <> "" -> isValidBiliUrl d = true ->
  let c' := fst (App.exec srv (App.handleSubmit d) c) in
  (forall resp data s sm,
      srv (App.summary_request d) = Some resp ->
      Async.json resp = Some data ->
      JS.getProp data "success" = Some s -> JS.truthy s = true ->
      JS.getProp data "summary" = Some sm ->
      App.summary c' = sm /\ App.error c' = JS.VStr "")
  /\ (forall resp data s e,
        srv (App.summary_request d) = Some resp ->
        Async.json resp = Some data ->
        JS.getProp data "success" = Some s -> JS.truthy s = false ->
        JS.getProp data "error" = Some e ->
        App.error c' = (if JS.truthy e then e else JS.VStr App.msg_summary_failed) /\
        App.summary c' = JS.VStr "")
  /\ (srv (App.summary_request d) = None ->
      App.error c' = JS.VStr App.msg_network_failed)
  /\ (forall resp,
        srv (App.summary_request d) = Some resp -> Async.json resp = None ->
        App.error c' = JS.VStr App.msg_network_failed).
Proof.
  intros Hne Hok c'. unfold c'.
  rewrite (exec_handleSubmit_valid srv d c Hne Hok). cbn [fst].
  split; [|split; [|split]].
  - intros resp data s sm Hs Hj Hg Ht Hsm.
    rewrite (exec_success srv d _ resp data s sm Hs Hj Hg Ht Hsm). split; reflexivity.
  - intros resp data s e Hs Hj Hg Ht He.
    rewrite (exec_failure srv d _ resp data s e Hs Hj Hg Ht He). split; reflexivity.
  - intros Hs. rewrite (exec_fetch_rejected srv d _ Hs). reflexivity.
  - intros resp Hs Hj. rewrite (exec_json_rejected srv d _ resp Hs Hj). reflexivity.
Qed.

Lemma handleSubmit_stores_response_witness :
  App.summary
    (fst (App.exec (fun _ => Some {| Async.json := Some App.summary_body |})
            (App.handleSubmit "https://www.bilibili.com/video/BV1")
            (App.st App.init))) = JS.VStr "# Hi"
  /\ App.error
       (fst (App.exec (fun _ => Some {| Async.json := Some App.summary_body |})
               (App.handleSubmit "https://www.bilibili.com/video/BV1")
               (App.st App.init))) = JS.VStr "".
Proof.
  refine (proj1
    (handleSubmit_stores_response
       (fun _ => Some {| Async.json := Some App.summary_body |})
       (App.st App.init) "https://www.bilibili.com/video/BV1" _ _)
    {| Async.json := Some App.summary_body |} App.summary_body
    (JS.VBool true) (JS.VStr "# Hi") _ _ _ _ _).
  - discriminate.
  - reflexivity.
  - reflexivity.
  - reflexivity.
  - reflexivity.
  - reflexivity.
  - reflexivity.
Defined.

(** A body that is [null] has no field to read: the read throws inside the
    [try] block, and the handler reports it like a network failure. *)
Lemma null_body_reported_as_network_failure
    (srv : Async.request -> option Async.response) (c : App.cells) (d : string)
    (resp : Async.response) :
  d <> "" -> isValidBiliUrl d = true ->
  srv (App.summary_request d) = Some resp -> Async.json resp = Some JS.VNull ->
  App.error (fst (App.exec srv (App.handleSubmit d) c)) =
    JS.VStr App.msg_network_failed.
Proof.
  intros Hne Hok Hs Hj.
  rewrite (exec_handleSubmit_valid srv d c Hne Hok). cbn [fst].
  now rewrite (exec_null_body srv d _ resp JS.VNull Hs Hj eq_refl).
Qed.

(** A body [{success: false, error: boom}] ends on the error panel with
    that text; a body [{success: true}] without a summary stores
    [undefined], and no panel is shown. *)
Example failure_body_shows_error_panel :
  let c := fst (App.exec
                  (fun _ => Some {| Async.json := Some (JS.VObj
                     [("success", JS.VBool false); ("error", JS.VStr "boom")]) |})
                  (App.handleSubmit "https://www.bilibili.com/video/BV1")
                  (App.st App.init)) in
  App.error c = JS.VStr "boom" /\ App.summary c = JS.VStr "" /\
  App.isLoading c = false /\
  App.shown (App.render c "https://www.bilibili.com/video/BV1") = [App.ErrorPanel].
Proof. repeat split. Qed.

Example success_without_summary :
  let c := fst (App.exec
                  (fun _ => Some {| Async.json := Some (JS.VObj
                     [("success", JS.VBool true)]) |})
                  (App.handleSubmit "https://www.bilibili.com/video/BV1")
                  (App.st App.init)) in
  App.summary c = JS.VUndefined /\ App.error c = JS.VStr "" /\
  App.shown (App.render c "https://www.bilibili.com/video/BV1") = [].
Proof. repeat split. Qed.

Lemma quote_chars_plain (s : string) :
  Json.plain s = true -> Json.quote_chars s = s.
Proof.
  induction s as [|ch s IH]; [reflexivity|].
  simpl. intros H. apply andb_true_iff in H as [Hc Hs].
  rewrite (IH Hs). unfold Json.plain_char in Hc.
  apply andb_true_iff in Hc as [Hc H92]. apply andb_true_iff in Hc as [H32 H34].
  apply Nat.leb_le in H32.
  apply negb_true_iff in H34, H92.
  unfold Json.quote_char. rewrite H34, H92.
  repeat (rewrite (proj2 (Nat.eqb_neq (nat_of_ascii ch) _)) by lia).
  rewrite (proj2 (Nat.ltb_ge (nat_of_ascii ch) 32)) by lia.
  reflexivity.
Qed.

(** A URL with a control character and a backslash is escaped in the
    body. *)
Example stringify_escapes :
  Json.stringify [("url", String (ascii_of_nat 9) (String Json.backslash "a"))] =
  "{" ++ Json.quoted "url" ++ ":"
      ++ Json.quoted (String Json.backslash
                        (String "t" (String Json.backslash (String Json.backslash "a"))))
      ++ "}".
Proof. reflexivity. Qed.

(** C7. With a non-empty debounced URL that passes the validator the
    handler clears the submission error and Summary, sets Loading, and is
    then waiting on one request; over the whole execution exactly one
    request is made: a POST to [/api/summary_bili] with the JSON content
    type and the serialised object whose one field [url] is the debounced
    URL. *)
Theorem handleSubmit_issues_one_post
    (srv : Async.request -> option Async.response) (c : App.cells) (d : string) :
  d <> "" -> isValidBiliUrl d = true ->
  (exists k,
      App.run_sync (App.handleSubmit d) c =
        (App.started c, App.start_effects, Async.AwaitFetch (App.summary_request d) k))
  /\ App.started c =
       {| App.url := App.url c; App.isLoading := true;
          App.summary := JS.VStr ""; App.error := JS.VStr "";
          App.urlError := App.urlError c |}
  /\ App.requests (snd (App.exec srv (App.handleSubmit d) c)) =
       [App.summary_request d]
  /\ App.summary_request d =
       {| Async.endpoint := "/api/summary_bili";
          Async.method := "POST";
          Async.headers := [("Content-Type", "application/json")];
          Async.body := Json.stringify [("url", d)] |}
  /\ (Json.plain d = true ->
      Async.body (App.summary_request d) =
        "{" ++ Json.quoted "url" ++ ":" ++ Json.quoted d ++ "}").
Proof.
  intros Hne Hok. split; [|split; [|split; [|split]]].
  - rewrite (handleSubmit_valid d Hne Hok).
    cbn [App.run_sync App.apply_action]. fold (App.started c).
    unfold App.try_statement, App.try_block, Async.await_fetch. simpl.
    eexists. reflexivity.
  - reflexivity.
  - rewrite (exec_handleSubmit_valid srv d c Hne Hok). cbn [snd].
    destruct (exec_try_statement srv d (App.started c)) as (c1 & t & E & Hreq & _).
    rewrite E. cbn [snd]. unfold App.requests in *.
    rewrite flat_map_app. simpl. rewrite flat_map_app, Hreq. reflexivity.
  - reflexivity.
  - intros Hp. unfold App.summary_request, Json.stringify, Json.members, Json.quote.
    simpl. rewrite (quote_chars_plain d Hp). reflexivity.
Qed.

Lemma handleSubmit_issues_one_post_witness :
  App.requests
    (snd (App.exec (fun _ => None)
            (App.handleSubmit "https://www.bilibili.com/video/BV1")
            (App.st App.init))) =
  [App.summary_request "https://www.bilibili.com/video/BV1"].
Proof.
  refine (proj1 (proj2 (proj2
    (handleSubmit_issues_one_post (fun _ => None) (App.st App.init)
       "https://www.bilibili.com/video/BV1" _ _)))).
  - discriminate.
  - reflexivity.
Defined.

(** ** The component *)

Section ComponentFacts.

Import Async App.

Lemma apply_action_frame (a : action) (c : cells) :
  url (apply_action a c) = url c /\ urlError (apply_action a c) = urlError c.
Proof. destruct a; split; reflexivity. Qed.

(** A handler never writes the input URL or the validation error. *)
Lemma run_sync_frame (p : prog unit) : forall c c' t rest,
  run_sync p c = (c', t, rest) -> url c' = url c /\ urlError c' = urlError c.
Proof.
  induction p as [x | e | a k IH | r k _ | resp k _]; intros c c' t rest E;
    simpl in E; try (injection E as <- _ _; split; reflexivity).
  destruct (run_sync k (apply_action a c)) as [[c1 t1] r1] eqn:Ek.
  injection E as <- _ _.
  destruct (IH _ _ _ _ Ek) as [E1 E2].
  destruct (apply_action_frame a c) as [F1 F2]. split; congruence.
Qed.

Lemma validationEffect_frame (d : string) (c : cells) :
  url (validationEffect d c) = url c /\
  isLoading (validationEffect d c) = isLoading c /\
  summary (validationEffect d c) = summary c /\
  error (validationEffect d c) = error c /\
  urlError (validationEffect d c) = expected_urlError d.
Proof.
  unfold expected_urlError, validationEffect.
  destruct (JS.truthy (JS.VStr d) && negb (isValidBiliUrl d)); repeat split.
Qed.

Lemma flushEffects_frame (m : component) :
  url (st (flushEffects m)) = url (st m) /\
  deb (flushEffects m) = deb m /\
  inflight (flushEffects m) = inflight m /\
  effect_due (flushEffects m) = false.
Proof.
  unfold flushEffects. destruct (effect_due m) eqn:E; simpl; repeat split; auto.
  apply validationEffect_frame.
Qed.

Lemma flushEffects_validated (m : component) :
  validated m ->
  urlError (st (flushEffects m)) = expected_urlError (debouncedUrl (flushEffects m)).
Proof.
  unfold validated, flushEffects. destruct (effect_due m) eqn:E; intros H.
  - simpl. apply validationEffect_frame.
  - now apply H.
Qed.

Lemma useDebounce_keeps_cell (v : string) (d : nat) (h : Debounce.hook string) :
  Debounce.debouncedValue (Debounce.useDebounce String.eqb v d h) =
  Debounce.debouncedValue h.
Proof.
  unfold Debounce.useDebounce.
  destruct (negb (Debounce.mounted h)); [reflexivity|].
  destruct (String.eqb v (Debounce.value h) && Nat.eqb d (Debounce.delay h));
    reflexivity.
Qed.

Lemma submit_url (m : component) : url (st (submit m)) = url (st m).
Proof.
  unfold submit.
  destruct (run_sync (handleSubmit (debouncedUrl m)) (st m)) as [[c t] rest] eqn:E.
  destruct (flushEffects_frame
              {| st := c; deb := deb m; effect_due := effect_due m;
                 inflight := park rest (inflight m) |}) as [-> _].
  simpl. now destruct (run_sync_frame _ _ _ _ _ E).
Qed.

Lemma resume_url (i : nat) (p : prog unit) (m : component) :
  url (st (resume i p m)) = url (st m).
Proof.
  unfold resume.
  destruct (run_sync p (st m)) as [[c t] rest] eqn:E.
  destruct (flushEffects_frame
              {| st := c; deb := deb m; effect_due := effect_due m;
                 inflight := replace_nth i rest (inflight m) |}) as [-> _].
  simpl. now destruct (run_sync_frame _ _ _ _ _ E).
Qed.

Lemma submit_validated (m : component) : validated m -> validated (submit m).
Proof.
  intros Hv _. unfold submit.
  destruct (run_sync (handleSubmit (debouncedUrl m)) (st m)) as [[c t] rest] eqn:E.
  apply flushEffects_validated. unfold validated. simpl. intros Hd.
  destruct (run_sync_frame _ _ _ _ _ E) as [_ ->]. now apply Hv.
Qed.

Lemma resume_validated (i : nat) (p : prog unit) (m : component) :
  validated m -> validated (resume i p m).
Proof.
  intros Hv _. unfold resume.
  destruct (run_sync p (st m)) as [[c t] rest] eqn:E.
  apply flushEffects_validated. unfold validated. simpl. intros Hd.
  destruct (run_sync_frame _ _ _ _ _ E) as [_ ->]. now apply Hv.
Qed.

Lemma step_validated (m m' : component) (e : event) :
  validated m -> step m e = Some m' -> validated m'.
Proof.
  intros Hv Hstep. destruct e as [v | | | | | i o | i]; unfold step in Hstep.
  - destruct (input_disabled (screen m)); [discriminate|].
    injection Hstep as <-. intros _. simpl.
    unfold debouncedUrl. simpl. rewrite useDebounce_keeps_cell.
    apply (flushEffects_validated m Hv).
  - destruct (String.eqb (Debounce.debouncedValue (Debounce.tick (deb m)))
                         (debouncedUrl m)) eqn:E;
      injection Hstep as <-; [|intros H; discriminate H].
    apply String.eqb_eq in E. intros Hd. simpl in *.
    unfold debouncedUrl at 1. simpl. rewrite E. now apply Hv.
  - injection Hstep as <-. intros _. now apply flushEffects_validated.
  - destruct (submit_disabled (screen m)); [discriminate|].
    injection Hstep as <-. now apply submit_validated.
  - injection Hstep as <-. now apply submit_validated.
  - destruct (nth_error (inflight m) i) as [[ | | | r k | ]|]; try discriminate.
    injection Hstep as <-. now apply resume_validated.
  - destruct (nth_error (inflight m) i) as [[ | | | | resp k]|]; try discriminate.
    injection Hstep as <-. now apply resume_validated.
Qed.

Lemma run_validated (evs : list event) : forall m m',
  validated m -> run evs m = Some m' -> validated m'.
Proof.
  induction evs as [|e evs IH]; intros m m' Hv Hrun; simpl in Hrun.
  - now injection Hrun as <-.
  - destruct (step m e) as [m1|] eqn:E; [|discriminate].
    eapply IH; [|exact Hrun]. eapply step_validated; eassumption.
Qed.

Lemma reachable_validated (m : component) : reachable m -> validated m.
Proof.
  intros [evs Hrun]. eapply run_validated; [|exact Hrun].
  intros _. reflexivity.
Qed.

Lemma tick_delay (h : Debounce.hook string) :
  Debounce.delay (Debounce.tick h) = Debounce.delay h.
Proof.
  assert (Hfold : forall (l : list string) (x : Debounce.hook string),
             Debounce.delay (fold_left (Debounce.setDebouncedValue string) l x) =
             Debounce.delay x).
  { induction l as [|a l IH]; intros x; [reflexivity|].
    simpl. rewrite IH. unfold Debounce.setDebouncedValue.
    destruct (Debounce.mounted x); reflexivity. }
  unfold Debounce.tick, Timers.advance. now rewrite Hfold.
Qed.

Lemma useDebounce_delay (v : string) (h : Debounce.hook string) :
  Debounce.delay h = debounce_delay ->
  Debounce.delay (Debounce.useDebounce String.eqb v debounce_delay h) = debounce_delay.
Proof.
  intros E. unfold Debounce.useDebounce.
  destruct (negb (Debounce.mounted h)); [exact E|].
  destruct (String.eqb v (Debounce.value h) && _); [exact E | reflexivity].
Qed.

Lemma submit_deb (m : component) : deb (submit m) = deb m.
Proof.
  unfold submit.
  destruct (run_sync (handleSubmit (debouncedUrl m)) (st m)) as [[c t] rest].
  now destruct (flushEffects_frame
                  {| st := c; deb := deb m; effect_due := effect_due m;
                     inflight := park rest (inflight m) |}) as (_ & -> & _).
Qed.

Lemma resume_deb (i : nat) (p : prog unit) (m : component) :
  deb (resume i p m) = deb m.
Proof.
  unfold resume.
  destruct (run_sync p (st m)) as [[c t] rest].
  now destruct (flushEffects_frame
                  {| st := c; deb := deb m; effect_due := effect_due m;
                     inflight := replace_nth i rest (inflight m) |}) as (_ & -> & _).
Qed.

Lemma step_hook_ok (m m' : component) (e : event) :
  hook_ok m -> step m e = Some m' -> hook_ok m'.
Proof.
  intros [Hwf Hd] Hstep. unfold hook_ok.
  destruct e as [v | | | | | i o | i]; unfold step in Hstep.
  - destruct (input_disabled (screen m)); [discriminate|].
    injection Hstep as <-. simpl.
    destruct (flushEffects_frame m) as (_ & -> & _). split.
    + now apply wf_useDebounce.
    + now apply useDebounce_delay.
  - destruct (String.eqb _ _); injection Hstep as <-; simpl;
      (split; [now apply wf_tick | now rewrite tick_delay]).
  - injection Hstep as <-. destruct (flushEffects_frame m) as (_ & -> & _). auto.
  - destruct (submit_disabled (screen m)); [discriminate|].
    injection Hstep as <-. rewrite submit_deb. auto.
  - injection Hstep as <-. rewrite submit_deb. auto.
  - destruct (nth_error (inflight m) i) as [[ | | | r k | ]|]; try discriminate.
    injection Hstep as <-. rewrite resume_deb. auto.
  - destruct (nth_error (inflight m) i) as [[ | | | | resp k]|]; try discriminate.
    injection Hstep as <-. rewrite resume_deb. auto.
Qed.

Lemma reachable_hook_ok (m : component) : reachable m -> hook_ok m.
Proof.
  intros [evs Hrun].
  assert (H0 : hook_ok init).
  { split; [apply wf_mount|]; reflexivity. }
  revert H0 Hrun. generalize init.
  induction evs as [|e evs IH]; intros m0 H0 Hrun; simpl in Hrun.
  - now injection Hrun as <-.
  - destruct (step m0 e) as [m1|] eqn:E; [|discriminate].
    eapply IH; [|exact Hrun]. eapply step_hook_ok; eassumption.
Qed.

(** *** Handlers in flight *)

Lemma flushEffects_isLoading (m : component) :
  isLoading (st (flushEffects m)) = isLoading (st m).
Proof.
  unfold flushEffects. destruct (effect_due m); [|reflexivity].
  simpl. apply validationEffect_frame.
Qed.

(** The synchronous part of a submission either ends the handler or leaves
    the [try] statement waiting on [fetch]. *)
Lemma run_sync_handleSubmit (d : string) (c : cells) :
  exists c' t rest,
    run_sync (handleSubmit d) c = (c', t, rest) /\
    (rest = Ret tt \/ rest = try_statement d).
Proof.
  destruct (string_dec d "") as [-> | Hne].
  - do 3 eexists. split; [reflexivity | now left].
  - destruct (isValidBiliUrl d) eqn:Hv.
    + rewrite (handleSubmit_valid d Hne Hv).
      do 3 eexists. split; [reflexivity | now right].
    + rewrite (handleSubmit_invalid d Hne Hv).
      do 3 eexists. split; [reflexivity | now left].
Qed.

(** Once [fetch] has settled the handler either is over, with Loading
    false, or waits on the body. *)
Lemma run_sync_after_fetch (d : string) (o : option response) (c : cells) :
  exists c' t rest,
    run_sync (after_fetch d o) c = (c', t, rest) /\
    ((rest = Ret tt /\ isLoading c' = false) \/
     (exists resp, o = Some resp /\ rest = after_fetch d (Some resp))).
Proof.
  destruct o as [resp|].
  - do 3 eexists. split; [reflexivity|]. right. now exists resp.
  - do 3 eexists. split; [reflexivity|]. now left.
Qed.

(** Once the body has settled the handler is over, with Loading false. *)
Lemma run_sync_after_json (d : string) (resp : response) (o : option JS.value)
    (c : cells) :
  exists c' t,
    run_sync (after_json d resp o) c = (c', t, Ret tt) /\ isLoading c' = false.
Proof.
  destruct o as [data|]; [|do 2 eexists; split; reflexivity].
  unfold after_json, after_fetch, try_statement, try_block, await_fetch, await_json, get.
  simpl.
  destruct (JS.getProp data "success") as [s|] eqn:Hg;
    [|do 2 eexists; split; reflexivity].
  simpl. destruct (JS.truthy s).
  - destruct (getProp_defined data "success" "summary" s Hg) as [sm ->].
    do 2 eexists; split; reflexivity.
  - destruct (getProp_defined data "success" "error" s Hg) as [e ->].
    do 2 eexists; split; reflexivity.
Qed.

Lemma park_ok (rest : prog unit) (l : list (prog unit)) :
  rest = Ret tt \/ suspended_handler rest ->
  Forall suspended_handler l -> Forall suspended_handler (park rest l).
Proof.
  intros [-> | Hs] Hl; [exact Hl|].
  destruct Hs; simpl; apply Forall_app; split; auto; repeat constructor.
Qed.

Lemma replace_nth_ok (rest : prog unit) (l : list (prog unit)) : forall i,
  rest = Ret tt \/ suspended_handler rest ->
  Forall suspended_handler l -> Forall suspended_handler (replace_nth i rest l).
Proof.
  intros i Hrest Hl. revert i.
  induction Hl as [|x l Hx Hl IH]; intros i; [destruct i; constructor|].
  destruct i as [|i]; simpl.
  - apply Forall_app. split; [|exact Hl].
    apply (park_ok rest [] Hrest). constructor.
  - constructor; [exact Hx | apply IH].
Qed.

Lemma replace_nth_parked (rest : prog unit) (l : list (prog unit)) : forall i,
  suspended_handler rest -> length l <= length (replace_nth i rest l).
Proof.
  intros i Hs. revert i. induction l as [|x l IH]; intros i; [destruct i; simpl; lia|].
  destruct i as [|i]; simpl.
  - destruct Hs; simpl; lia.
  - specialize (IH i). lia.
Qed.

Lemma step_handlers_ok (m m' : component) (e : event) :
  handlers_ok m -> step m e = Some m' -> handlers_ok m'.
Proof.
  unfold handlers_ok. intros Hok Hstep.
  assert (Hsub : Forall suspended_handler (inflight (submit m))).
  { unfold submit.
    destruct (run_sync_handleSubmit (debouncedUrl m) (st m))
      as (c & t & rest & -> & Hrest).
    destruct (flushEffects_frame
                {| st := c; deb := deb m; effect_due := effect_due m;
                   inflight := park rest (inflight m) |}) as (_ & _ & -> & _).
    simpl. apply park_ok; [|exact Hok].
    destruct Hrest as [-> | ->]; [now left | right; constructor]. }
  destruct e as [v | | | | | i o | i]; unfold step in Hstep.
  - destruct (input_disabled (screen m)); [discriminate|].
    injection Hstep as <-. simpl. now destruct (flushEffects_frame m) as (_ & _ & -> & _).
  - destruct (String.eqb _ _); injection Hstep as <-; exact Hok.
  - injection Hstep as <-. now destruct (flushEffects_frame m) as (_ & _ & -> & _).
  - destruct (submit_disabled (screen m)); [discriminate|].
    injection Hstep as <-. exact Hsub.
  - injection Hstep as <-. exact Hsub.
  - destruct (nth_error (inflight m) i) as [p|] eqn:En; [|discriminate].
    pose proof (proj1 (Forall_forall _ _) Hok p (nth_error_In _ _ En)) as Hp.
    destruct Hp as [d | d resp]; [|discriminate].
    simpl in Hstep. injection Hstep as <-.
    change (Forall suspended_handler (inflight (resume i (after_fetch d o) m))).
    unfold resume.
    destruct (run_sync_after_fetch d o (st m)) as (c & t & rest & -> & Hrest).
    match goal with |- context [flushEffects ?x] =>
      destruct (flushEffects_frame x) as (_ & _ & -> & _) end.
    simpl. apply replace_nth_ok; [|exact Hok].
    destruct Hrest as [[-> _] | (resp & _ & ->)]; [now left | right; constructor].
  - destruct (nth_error (inflight m) i) as [p|] eqn:En; [|discriminate].
    pose proof (proj1 (Forall_forall _ _) Hok p (nth_error_In _ _ En)) as Hp.
    destruct Hp as [d | d resp]; [discriminate|].
    simpl in Hstep. injection Hstep as <-.
    change (Forall suspended_handler
              (inflight (resume i (after_json d resp (json resp)) m))).
    unfold resume.
    destruct (run_sync_after_json d resp (json resp) (st m)) as (c & t & -> & _).
    match goal with |- context [flushEffects ?x] =>
      destruct (flushEffects_frame x) as (_ & _ & -> & _) end.
    simpl. apply replace_nth_ok; [now left | exact Hok].
Qed.

Lemma reachable_handlers_ok (m : component) : reachable m -> handlers_ok m.
Proof.
  intros [evs Hrun].
  assert (H0 : handlers_ok init) by constructor.
  revert H0 Hrun. generalize init.
  induction evs as [|e evs IH]; intros m0 H0 Hrun; simpl in Hrun.
  - now injection Hrun as <-.
  - destruct (step m0 e) as [m1|] eqn:E; [|discriminate].
    eapply IH; [|exact Hrun]. eapply step_handlers_ok; eassumption.
Qed.

(** When a promise settles and the handler waiting on it comes to its end,
    Loading is false, whatever else has happened since the submission. *)
Lemma settled_handler_clears_loading (m m' : component) (e : event) :
  handlers_ok m -> step m e = Some m' ->
  length (inflight m') < length (inflight m) ->
  isLoading (st m') = false.
Proof.
  unfold handlers_ok. intros Hok Hstep Hlen.
  assert (Hsub : length (inflight m) <= length (inflight (submit m))).
  { unfold submit.
    destruct (run_sync_handleSubmit (debouncedUrl m) (st m))
      as (c & t & rest & -> & Hrest).
    match goal with |- context [flushEffects ?x] =>
      destruct (flushEffects_frame x) as (_ & _ & -> & _) end.
    simpl. destruct Hrest as [-> | ->]; simpl; [lia|].
    rewrite length_app. simpl. lia. }
  destruct e as [v | | | | | i o | i]; unfold step in Hstep.
  - destruct (input_disabled (screen m)); [discriminate|].
    injection Hstep as <-. simpl in Hlen.
    destruct (flushEffects_frame m) as (_ & _ & E & _). rewrite E in Hlen. lia.
  - destruct (String.eqb _ _); injection Hstep as <-; simpl in Hlen; lia.
  - injection Hstep as <-.
    destruct (flushEffects_frame m) as (_ & _ & E & _). rewrite E in Hlen. lia.
  - destruct (submit_disabled (screen m)); [discriminate|].
    injection Hstep as <-. lia.
  - injection Hstep as <-. lia.
  - destruct (nth_error (inflight m) i) as [p|] eqn:En; [|discriminate].
    pose proof (proj1 (Forall_forall _ _) Hok p (nth_error_In _ _ En)) as Hp.
    destruct Hp as [d | d resp]; [|discriminate].
    simpl in Hstep. injection Hstep as <-.
    change (isLoading (st (resume i (after_fetch d o) m)) = false).
    change (length (inflight (resume i (after_fetch d o) m)) < length (inflight m))
      in Hlen.
    unfold resume in *.
    destruct (run_sync_after_fetch d o (st m)) as (c & t & rest & E & Hrest).
    rewrite E in *. rewrite flushEffects_isLoading. simpl.
    destruct Hrest as [[_ Hl] | (resp & _ & ->)]; [exact Hl|].
    exfalso.
    match type of Hlen with context [flushEffects ?x] =>
      destruct (flushEffects_frame x) as (_ & _ & E2 & _) end.
    rewrite E2 in Hlen. simpl in Hlen.
    pose proof (replace_nth_parked (after_fetch d (Some resp)) (inflight m) i
                  (waits_json d resp)). lia.
  - destruct (nth_error (inflight m) i) as [p|] eqn:En; [|discriminate].
    pose proof (proj1 (Forall_forall _ _) Hok p (nth_error_In _ _ En)) as Hp.
    destruct Hp as [d | d resp]; [discriminate|].
    simpl in Hstep. injection Hstep as <-.
    change (isLoading (st (resume i (after_json d resp (json resp)) m)) = false).
    unfold resume.
    destruct (run_sync_after_json d resp (json resp) (st m)) as (c & t & -> & Hl).
    rewrite flushEffects_isLoading. exact Hl.
Qed.

Lemma expected_urlError_nonempty (d : string) :
  expected_urlError d <> "" <-> d <> "" /\ isValidBiliUrl d = false.
Proof.
  unfold expected_urlError, validationEffect.
  destruct d as [|ch d]; simpl.
  - split; [congruence | intros [H _]; congruence].
  - destruct (isValidBiliUrl (String ch d)); simpl; split;
      try discriminate; try (intros [_ H]; discriminate H);
      try (intros _; split; [discriminate | reflexivity]); congruence.
Qed.

End ComponentFacts.

(** C4. After both checks have passed, whatever the server does (the
    request fails, the body is not JSON, the body reports success or
    failure), the execution of the handler ends, nothing escapes it, its
    last effect is [setIsLoading(false)], and Loading is false at the end.
    In the running component, with any other events in between: whenever a
    promise settles and the handler waiting on it comes to its end, Loading
    is false. *)
Theorem handleSubmit_always_clears_loading :
  (forall (srv : Async.request -> option Async.response) (c : App.cells)
          (d : string),
      d <> "" -> isValidBiliUrl d = true ->
      App.isLoading (fst (App.exec srv (App.handleSubmit d) c)) = false
      /\ (exists t, snd (App.exec srv (App.handleSubmit d) c) =
                    (t ++ [App.Did (Async.SetIsLoading false)])%list)
      /\ existsb App.is_uncaught (snd (App.exec srv (App.handleSubmit d) c)) = false)
  /\ (forall (m m' : App.component) (e : App.event),
        App.reachable m -> App.step m e = Some m' ->
        length (App.inflight m') < length (App.inflight m) ->
        App.isLoading (App.st m') = false).
Proof.
  split.
  - intros srv c d Hne Hok.
    rewrite (exec_handleSubmit_valid srv d c Hne Hok). cbn [fst snd].
    destruct (exec_try_statement srv d (App.started c)) as (c1 & t & E & _ & Hun).
    rewrite E. cbn [fst snd]. split; [reflexivity|]. split.
    + exists (App.start_effects ++ App.Fetched (App.summary_request d) :: t)%list.
      rewrite <- app_assoc. reflexivity.
    + rewrite existsb_app. simpl. rewrite existsb_app, Hun. reflexivity.
  - intros m m' e Hr. apply settled_handler_clears_loading.
    now apply reachable_handlers_ok.
Qed.

Lemma handleSubmit_always_clears_loading_witness :
  App.isLoading
    (fst (App.exec (fun _ => None)
            (App.handleSubmit "https://www.bilibili.com/video/BV1")
            (App.st App.init))) = false.
Proof.
  refine (proj1 (proj1 handleSubmit_always_clears_loading (fun _ => None)
                   (App.st App.init) "https://www.bilibili.com/video/BV1" _ _)).
  - discriminate.
  - reflexivity.
Defined.

(** C6. The validation effect leaves a non-empty validation error exactly
    when the debounced URL is non-empty and fails the validator: an empty
    debounced URL clears it, a non-empty one that fails the validator sets
    the fixed message, a non-empty one that passes clears it. In every
    state the component can reach, once the effect has run, the validation
    error on screen is non-empty exactly when the debounced URL is
    non-empty and fails the validator. *)
Theorem validation_error_tracks_debounced_url :
  (forall (d : string) (c : App.cells),
      (App.urlError (App.validationEffect d c) <> "" <->
       d <> "" /\ isValidBiliUrl d = false)
      /\ (d = "" -> App.urlError (App.validationEffect d c) = "")
      /\ (d <> "" -> isValidBiliUrl d = false ->
          App.urlError (App.validationEffect d c) = App.msg_url_prefix)
      /\ (d <> "" -> isValidBiliUrl d = true ->
          App.urlError (App.validationEffect d c) = ""))
  /\ (forall m : App.component,
        App.reachable m -> App.effect_due m = false ->
        (App.urlError (App.st m) <> "" <->
         App.debouncedUrl m <> "" /\ isValidBiliUrl (App.debouncedUrl m) = false)).
Proof.
  split.
  - intros d c.
    destruct (validationEffect_frame d c) as (_ & _ & _ & _ & E).
    split; [rewrite E; apply expected_urlError_nonempty|].
    unfold App.validationEffect. split; [|split].
    + intros ->. reflexivity.
    + intros Hne Hbad. apply truthy_str in Hne. rewrite Hne, Hbad. reflexivity.
    + intros Hne Hok. rewrite Hok, andb_false_r. reflexivity.
  - intros m Hr Hd. rewrite (reachable_validated m Hr Hd).
    apply expected_urlError_nonempty.
Qed.

Lemma validation_error_tracks_debounced_url_witness :
  App.urlError (App.validationEffect "bilibili" (App.st App.init)) =
  App.msg_url_prefix.
Proof.
  refine (proj1 (proj2 (proj2
    (proj1 validation_error_tracks_debounced_url "bilibili" (App.st App.init)))) _ _).
  - discriminate.
  - reflexivity.
Defined.

(** C9. Whenever Loading is true the URL input is rendered disabled, no
    keystroke reaches [onChange], and no event changes the input URL. *)
Theorem input_disabled_while_loading (m : App.component) :
  App.isLoading (App.st m) = true ->
  App.input_disabled (App.screen m) = true
  /\ (forall v, App.step m (App.Change v) = None)
  /\ (forall e m', App.step m e = Some m' ->
                   App.url (App.st m') = App.url (App.st m)).
Proof.
  intros Hl.
  assert (Hdis : App.input_disabled (App.screen m) = true) by exact Hl.
  split; [exact Hdis|]. split.
  - intros v. unfold App.step. now rewrite Hdis.
  - intros e m' Hstep. destruct e as [v | | | | | i o | i]; unfold App.step in Hstep.
    + rewrite Hdis in Hstep. discriminate.
    + destruct (String.eqb _ _); injection Hstep as <-; [reflexivity|].
      simpl. apply flushEffects_frame.
    + injection Hstep as <-. apply flushEffects_frame.
    + destruct (App.submit_disabled (App.screen m)); [discriminate|].
      injection Hstep as <-. apply submit_url.
    + injection Hstep as <-. apply submit_url.
    + destruct (nth_error (App.inflight m) i) as [[ | | | r k | ]|]; try discriminate.
      injection Hstep as <-. apply resume_url.
    + destruct (nth_error (App.inflight m) i) as [[ | | | | resp k]|]; try discriminate.
      injection Hstep as <-. apply resume_url.
Qed.

Lemma input_disabled_while_loading_witness :
  App.step
    {| App.st := App.started (App.st App.init); App.deb := App.deb App.init;
       App.effect_due := false; App.inflight := [] |}
    (App.Change "a") = None.
Proof.
  refine (proj1 (proj2
    (input_disabled_while_loading
       {| App.st := App.started (App.st App.init); App.deb := App.deb App.init;
          App.effect_due := false; App.inflight := [] |} _)) "a").
  reflexivity.
Defined.

(** The session of [session_click] ends with a summary from the earlier
    request and an error from the later submission, both on screen. *)
Lemma session_click_end :
  exists m,
    App.run App.session_click App.init = Some m /\
    App.isLoading (App.st m) = false /\
    App.error (App.st m) = JS.VStr App.msg_invalid_format /\
    App.summary (App.st m) = JS.VStr "# Hi".
Proof.
  eexists. split; [vm_compute; reflexivity|]. repeat split.
Qed.

(** C5, as the specification states it, fails: the component reaches a state
    whose screen shows the error panel and the summary panel together,
    where the top-down selector would show the error panel alone. *)
Lemma panels_not_exclusive :
  ~ (forall m : App.component,
       App.reachable m ->
       App.shown (App.screen m) = App.only (App.spec_selector (App.st m))).
Proof.
  intros H.
  destruct session_click_end as (m & Hrun & Hl & He & Hs).
  specialize (H m (ex_intro _ App.session_click Hrun)).
  unfold App.shown, App.screen, App.render, App.spec_selector in H. simpl in H.
  rewrite Hl, He, Hs in H. simpl in H. discriminate H.
Qed.

(** The same end by another way: the input is emptied and the submit event
    is dispatched on the form while the button is disabled. *)
Example session_dispatch_end :
  exists m,
    App.run App.session_dispatch App.init = Some m /\
    App.shown (App.screen m) = [App.ErrorPanel; App.SummaryPanel] /\
    App.error (App.st m) = JS.VStr App.msg_empty_input.
Proof.
  eexists. split; [vm_compute; reflexivity|]. split; reflexivity.
Qed.

(** ** Runs of the debounce hook *)

Section DebounceRunFacts.

Import Debounce DebounceRuns.

Variable T : Type.
Variable T_eqb : T -> T -> bool.
Hypothesis T_eqb_eq : forall a b, T_eqb a b = true <-> a = b.

Lemma fold_setDebouncedValue_frame (l : list T) : forall x : Debounce.hook T,
  value (fold_left (setDebouncedValue T) l x) = value x /\
  delay (fold_left (setDebouncedValue T) l x) = delay x /\
  timers (fold_left (setDebouncedValue T) l x) = timers x /\
  mounted (fold_left (setDebouncedValue T) l x) = mounted x.
Proof.
  induction l as [|a l IH]; intros x; simpl; [auto|].
  destruct (IH (setDebouncedValue T x a)) as (E1 & E2 & E3 & E4).
  rewrite E1, E2, E3, E4. unfold setDebouncedValue.
  destruct (mounted x) eqn:Em; simpl; auto.
Qed.

Lemma tick_frame (h : Debounce.hook T) :
  value (tick h) = value h /\ delay (tick h) = delay h.
Proof.
  unfold tick, Timers.advance.
  match goal with |- context [fold_left _ ?l ?x] =>
    destruct (fold_setDebouncedValue_frame l x) as (E1 & E2 & _) end.
  rewrite E1, E2. auto.
Qed.

(** A render with a changed dependency, the value or the delay, cancels
    what was pending and arms one timer. *)
Lemma useDebounce_rearms (h : Debounce.hook T) (v : T) (d : nat) :
  wf h -> T_eqb v (value h) && Nat.eqb d (delay h) = false ->
  armed (useDebounce T_eqb v d h) (Timers.next_id (timers h)) v d /\
  debouncedValue (useDebounce T_eqb v d h) = debouncedValue h /\
  delay (useDebounce T_eqb v d h) = d.
Proof.
  intros Hwf Hne. pose proof Hwf as (Hm & _).
  unfold useDebounce. rewrite Hm, Hne. simpl.
  unfold run_effect, Timers.setTimeout.
  destruct (cleanup_clock T h) as [Hnow Hnext].
  rewrite (cleanup_clears T h Hwf), Hnow, Hnext.
  unfold armed. simpl. repeat split. lia.
Qed.

Lemma useDebounce_same (h : Debounce.hook T) :
  useDebounce T_eqb (value h) (delay h) h = h.
Proof.
  unfold useDebounce. destruct (negb (mounted h)); [reflexivity|].
  rewrite (proj2 (T_eqb_eq _ _) eq_refl), Nat.eqb_refl. reflexivity.
Qed.

(** The unit of time at which an armed timer is due or overdue. *)
Lemma tick_armed_due (h : Debounce.hook T) id v r :
  armed h id v r -> r <= 1 ->
  debouncedValue (tick h) = v /\ idle (tick h).
Proof.
  intros (Hm & Hh & Hv & Hlt & Ha) Hr.
  unfold tick, Timers.advance, Timers.is_due, idle. rewrite Ha. simpl.
  replace (Nat.leb (Timers.now (timers h) + r) (S (Timers.now (timers h))))
    with true by (symmetry; apply Nat.leb_le; lia).
  simpl. unfold setDebouncedValue. simpl. rewrite Hm. simpl. auto.
Qed.

Lemma tracking_mount (v : T) (d : nat) (tm : Timers.t T) :
  Timers.active tm = [] -> tracking (mount v d tm).
Proof.
  intros E. split; [now apply wf_mount|]. left.
  exists (Timers.next_id tm), d. split; [|simpl; lia].
  unfold armed, mount, run_effect. simpl. rewrite E. simpl. repeat split. lia.
Qed.

Lemma tracking_useDebounce (h : Debounce.hook T) (v : T) (d : nat) :
  tracking h -> tracking (useDebounce T_eqb v d h).
Proof.
  intros [Hwf Hcase].
  destruct (T_eqb v (value h) && Nat.eqb d (delay h)) eqn:E.
  - unfold useDebounce. rewrite E. destruct (negb (mounted h)); split; assumption.
  - destruct (useDebounce_rearms h v d Hwf E) as (Ha & _ & Hd).
    split; [eapply armed_wf; exact Ha|]. left.
    exists (Timers.next_id (timers h)), d.
    assert (Hv : value (useDebounce T_eqb v d h) = v)
      by (destruct Ha as (_ & _ & Hv & _); exact Hv).
    rewrite Hv, Hd. split; [exact Ha | lia].
Qed.

Lemma tracking_tick (h : Debounce.hook T) : tracking h -> tracking (tick h).
Proof.
  intros [Hwf Hcase]. split; [now apply wf_tick|].
  destruct (tick_frame h) as [Ev Ed]. rewrite Ev, Ed.
  destruct Hcase as [(id & r & Ha & Hr) | [Hi Hd]].
  - destruct r as [|[|r]].
    + right. destruct (tick_armed_due h id _ 0 Ha) as [E Hi]; [lia | auto].
    + right. destruct (tick_armed_due h id _ 1 Ha) as [E Hi]; [lia | auto].
    + left. destruct (tick_armed_wait T h id _ r Ha) as (Ha' & _ & _).
      exists id, (S r). split; [exact Ha' | lia].
  - right. destruct (tick_idle T h Hi) as [Hi' E]. split; [exact Hi' | congruence].
Qed.

Lemma tracking_run (evs : list (Debounce.event T)) : forall h : Debounce.hook T,
  tracking h -> forallb (fun e => negb (is_unmount e)) evs = true ->
  tracking (run T_eqb evs h).
Proof.
  induction evs as [|e evs IH]; intros h Ht Hev; [exact Ht|].
  simpl in Hev. apply andb_true_iff in Hev as [He Hev].
  unfold run. simpl. apply IH; [|exact Hev].
  destruct e as [v d | | ]; simpl.
  - now apply tracking_useDebounce.
  - now apply tracking_tick.
  - discriminate He.
Qed.

(** The dependency [value] of the hook is the value of the last render. *)
Lemma value_run (evs : list (Debounce.event T)) : forall h : Debounce.hook T,
  mounted h = true -> forallb (fun e => negb (is_unmount e)) evs = true ->
  value (run T_eqb evs h) = last_rendered (value h) evs /\
  mounted (run T_eqb evs h) = true.
Proof.
  induction evs as [|e evs IH]; intros h Hm Hev; [split; [reflexivity | exact Hm]|].
  simpl in Hev. apply andb_true_iff in Hev as [He Hev].
  unfold run. simpl. destruct e as [v d | | ]; simpl.
  - assert (Hstep : value (useDebounce T_eqb v d h) = v /\
                    mounted (useDebounce T_eqb v d h) = true).
    { unfold useDebounce. rewrite Hm. simpl.
      destruct (T_eqb v (value h)) eqn:Ev; simpl.
      - apply T_eqb_eq in Ev. destruct (Nat.eqb d (delay h)); simpl; auto.
      - auto. }
    destruct Hstep as [Ev Hm'].
    destruct (IH _ Hm' Hev) as [E1 E2]. split; [|exact E2].
    unfold run in E1. rewrite E1, Ev. unfold last_rendered. simpl.
    symmetry. apply last_cons_default.
  - destruct (tick_frame h) as [Ev _].
    assert (Hm' : mounted (tick h) = true).
    { unfold tick, Timers.advance.
      match goal with |- context [fold_left _ ?l ?x] =>
        destruct (fold_setDebouncedValue_frame l x) as (_ & _ & _ & E) end.
      rewrite E. exact Hm. }
    destruct (IH _ Hm' Hev) as [E1 E2]. split; [|exact E2].
    unfold run in E1. rewrite E1, Ev. reflexivity.
  - discriminate He.
Qed.

(** Quiet events are only time: a run of them is as many ticks. *)
Lemma quiet_run (tail : list (Debounce.event T)) : forall h : Debounce.hook T,
  Forall (quiet h) tail ->
  run T_eqb tail h = ticks (count_ticks tail) h.
Proof.
  induction tail as [|e tail IH]; intros h Hq; [reflexivity|].
  inversion Hq as [|x l He Hq']; subst x l.
  unfold run in *. cbn [fold_left]. destruct e as [v d | | ]; simpl in He.
  - destruct He as [-> ->]. cbn [Debounce.step]. rewrite useDebounce_same.
    unfold count_ticks. simpl. apply IH. exact Hq'.
  - unfold count_ticks. cbn [Debounce.step filter is_tick length ticks]. apply IH.
    destruct (tick_frame h) as [Ev Ed].
    eapply Forall_impl; [|exact Hq'].
    intros [v d | | ]; simpl; auto. rewrite Ev, Ed. auto.
  - contradiction.
Qed.

Lemma tracking_settles (h : Debounce.hook T) (n : nat) :
  tracking h -> delay h <= n -> 1 <= n ->
  debouncedValue (ticks n h) = value h.
Proof.
  intros [_ Hcase] Hn H1.
  destruct Hcase as [(id & r & Ha & Hr) | [Hi Hd]].
  - destruct r as [|r].
    + destruct n as [|n]; [lia|]. simpl.
      destruct (tick_armed_due h id _ 0 Ha) as [E Hi]; [lia|].
      now rewrite (ticks_idle T n _ Hi).
    + apply (ticks_armed_ge T h id _ r n Ha). lia.
  - now rewrite (ticks_idle T n h Hi).
Qed.

Lemma within_weaken (vs ws : list T) (h : Debounce.hook T) :
  (forall x, In x vs -> In x ws) -> within vs h -> within ws h.
Proof.
  intros Hsub [H1 H2]. split; [auto|].
  eapply Forall_impl; [|exact H2]. simpl. auto.
Qed.

Lemma within_tick (vs : list T) (h : Debounce.hook T) :
  within vs h -> within vs (tick h).
Proof.
  intros [Hd Ha]. unfold tick, Timers.advance.
  set (n := S (Timers.now (timers h))).
  assert (Hfired : Forall (fun v => In v vs)
                     (map Timers.payload (filter (Timers.is_due n) (Timers.active (timers h))))).
  { apply Forall_forall. intros v Hv. apply in_map_iff in Hv as (x & <- & Hx).
    apply filter_In in Hx as [Hx _]. rewrite Forall_forall in Ha. now apply Ha. }
  assert (Hfold : forall (l : list T) (x : Debounce.hook T),
             Forall (fun v => In v vs) l -> within vs x ->
             within vs (fold_left (setDebouncedValue T) l x)).
  { induction l as [|a l IH]; intros x Hl Hx; [exact Hx|].
    inversion Hl as [|y l' Hy Hl']; subst y l'. simpl. apply IH; [exact Hl'|].
    unfold setDebouncedValue. destruct (mounted x); [|exact Hx].
    destruct Hx as [_ Hx2]. split; [exact Hy | exact Hx2]. }
  apply Hfold; [exact Hfired|]. split; simpl; [exact Hd|].
  apply Forall_forall. intros x Hx. apply filter_In in Hx as [Hx _].
  rewrite Forall_forall in Ha. now apply Ha.
Qed.

Lemma within_cleanup (vs : list T) (h : Debounce.hook T) :
  within vs h ->
  Forall (fun x => In (Timers.payload x) vs) (Timers.active (run_cleanup T h)).
Proof.
  intros [_ Ha]. unfold run_cleanup. destruct (handler h); [|exact Ha].
  simpl. apply Forall_forall. intros x Hx. apply filter_In in Hx as [Hx _].
  rewrite Forall_forall in Ha. now apply Ha.
Qed.

Lemma within_useDebounce (vs : list T) (h : Debounce.hook T) (v : T) (d : nat) :
  within vs h -> In v vs -> within vs (useDebounce T_eqb v d h).
Proof.
  intros Hw Hv. unfold useDebounce.
  destruct (negb (mounted h)); [exact Hw|].
  destruct (T_eqb v (value h) && Nat.eqb d (delay h)); [exact Hw|].
  unfold run_effect, Timers.setTimeout. split; simpl; [apply Hw|].
  apply Forall_app. split; [now apply within_cleanup|].
  constructor; [exact Hv | constructor].
Qed.

Lemma within_unmount (vs : list T) (h : Debounce.hook T) :
  within vs h -> within vs (unmount h).
Proof.
  intros Hw. split; simpl; [apply Hw | now apply within_cleanup].
Qed.

Lemma within_run (evs : list (Debounce.event T)) :
  forall (vs : list T) (h : Debounce.hook T),
    within vs h -> within (vs ++ rendered evs)%list (run T_eqb evs h).
Proof.
  induction evs as [|e evs IH]; intros vs h Hw.
  - simpl. rewrite app_nil_r. exact Hw.
  - unfold run. simpl. destruct e as [v d | | ]; simpl.
    + replace (vs ++ v :: rendered evs)%list with ((vs ++ [v]) ++ rendered evs)%list
        by (rewrite <- app_assoc; reflexivity).
      apply IH. apply within_useDebounce.
      * eapply within_weaken; [|exact Hw]. intros x Hx. apply in_or_app. now left.
      * apply in_or_app. right. now left.
    + apply IH. now apply within_tick.
    + apply IH. now apply within_unmount.
Qed.

End DebounceRunFacts.

(** X1. From a mount, after any renders and time: once the arguments stay
    as they are (time passes, the component may render again with the same
    value and delay) for as many units as the delay, and at least one, the
    debounced value is the value of the last render. *)
Theorem useDebounce_settles_on_last_input
    (T : Type) (T_eqb : T -> T -> bool)
    (T_eqb_eq : forall a b, T_eqb a b = true <-> a = b)
    (v0 : T) (d : nat) (tm : Timers.t T)
    (evs tail : list (Debounce.event T)) :
  Timers.active tm = [] ->
  forallb (fun e => negb (DebounceRuns.is_unmount e)) evs = true ->
  Forall (DebounceRuns.quiet (Debounce.run T_eqb evs (Debounce.mount v0 d tm))) tail ->
  Debounce.delay (Debounce.run T_eqb evs (Debounce.mount v0 d tm))
    <= DebounceRuns.count_ticks tail ->
  1 <= DebounceRuns.count_ticks tail ->
  Debounce.debouncedValue
    (Debounce.run T_eqb tail (Debounce.run T_eqb evs (Debounce.mount v0 d tm)))
  = DebounceRuns.last_rendered v0 evs.
Proof.
  intros Htm Hev Hq Hn H1.
  set (h := Debounce.run T_eqb evs (Debounce.mount v0 d tm)) in *.
  rewrite (quiet_run T T_eqb T_eqb_eq tail h Hq).
  assert (Ht : DebounceRuns.tracking h).
  { apply tracking_run; [|exact Hev]. now apply tracking_mount. }
  rewrite (tracking_settles T h _ Ht Hn H1).
  destruct (value_run T T_eqb T_eqb_eq evs (Debounce.mount v0 d tm) eq_refl Hev)
    as [E _].
  exact E.
Qed.

Lemma useDebounce_settles_on_last_input_witness :
  Debounce.debouncedValue
    (Debounce.run String.eqb
       [Debounce.Tick; Debounce.Render "ab" 2; Debounce.Tick; Debounce.Tick]
       (Debounce.run String.eqb
          [Debounce.Render "a" 2; Debounce.Tick; Debounce.Render "ab" 2]
          (Debounce.mount "" 2 (Timers.empty string))))
  = "ab".
Proof.
  refine (useDebounce_settles_on_last_input string String.eqb String.eqb_eq
            "" 2 (Timers.empty string)
            [Debounce.Render "a" 2; Debounce.Tick; Debounce.Render "ab" 2]
            [Debounce.Tick; Debounce.Render "ab" 2; Debounce.Tick; Debounce.Tick]
            _ _ _ _ _).
  - reflexivity.
  - reflexivity.
  - repeat constructor.
  - vm_compute. lia.
  - vm_compute. lia.
Defined.

(** X2. Whatever the renders, the time and the teardown, the debounced
    value is the initial value or a value some render was given: the hook
    never makes one up and never mixes two. *)
Theorem useDebounce_value_is_an_input
    (T : Type) (T_eqb : T -> T -> bool)
    (v0 : T) (d : nat) (tm : Timers.t T) (evs : list (Debounce.event T)) :
  Timers.active tm = [] ->
  In (Debounce.debouncedValue (Debounce.run T_eqb evs (Debounce.mount v0 d tm)))
     (v0 :: DebounceRuns.rendered evs).
Proof.
  intros Htm.
  assert (H0 : DebounceRuns.within [v0] (Debounce.mount v0 d tm)).
  { unfold DebounceRuns.within, Debounce.mount, Debounce.run_effect. simpl.
    rewrite Htm. simpl. split; [now left|].
    constructor; [now left | constructor]. }
  exact (proj1 (within_run T T_eqb evs [v0] _ H0)).
Qed.

Lemma useDebounce_value_is_an_input_witness :
  In (Debounce.debouncedValue
        (Debounce.run String.eqb
           [Debounce.Render "a" 2; Debounce.Tick; Debounce.Tick; Debounce.Unmount;
            Debounce.Render "b" 2; Debounce.Tick; Debounce.Tick]
           (Debounce.mount "" 2 (Timers.empty string))))
     ["" ; "a"; "b"].
Proof.
  exact (useDebounce_value_is_an_input string String.eqb "" 2 (Timers.empty string)
           [Debounce.Render "a" 2; Debounce.Tick; Debounce.Tick; Debounce.Unmount;
            Debounce.Render "b" 2; Debounce.Tick; Debounce.Tick] eq_refl).
Defined.

(** X3. The delay is a dependency of the effect too: a render with the same
    value and another delay, positive and within the range a timer keeps
    (at most 2147483647), cancels the pending timer and schedules a new
    one, so the debounced value stays as it is for the new delay, counted
    from that render, and then becomes the value. *)
Theorem useDebounce_delay_change_rearms
    (T : Type) (T_eqb : T -> T -> bool) (h : Debounce.hook T) (d' : nat) :
  Debounce.wf h -> d' <> Debounce.delay h -> 0 < d' ->
  TimerRange.in_range d' ->
  let h' := Debounce.useDebounce T_eqb (Debounce.value h) d' h in
  (forall id, Debounce.handler h = Some id -> Debounce.pending id h' = false)
  /\ (forall k, k < d' ->
        Debounce.debouncedValue (Debounce.ticks k h') = Debounce.debouncedValue h)
  /\ (forall k, d' <= k ->
        Debounce.debouncedValue (Debounce.ticks k h') = Debounce.value h).
Proof.
  intros Hwf Hne Hpos _ h'.
  assert (Hdeps : T_eqb (Debounce.value h) (Debounce.value h)
                  && Nat.eqb d' (Debounce.delay h) = false).
  { rewrite (proj2 (Nat.eqb_neq _ _) Hne). apply andb_false_r. }
  destruct (useDebounce_rearms T T_eqb h _ d' Hwf Hdeps) as (Ha & Ed & _).
  fold h' in Ha, Ed.
  split; [|split].
  - intros id Hid. destruct Hwf as (_ & _ & Hfresh). specialize (Hfresh id Hid).
    destruct Ha as (_ & _ & _ & _ & Hact).
    unfold Debounce.pending. rewrite Hact. simpl.
    replace (Nat.eqb (Timers.next_id (Debounce.timers h)) id) with false; [reflexivity|].
    symmetry. apply Nat.eqb_neq. lia.
  - intros k Hk. replace d' with (k + S (d' - k - 1)) in Ha by lia.
    destruct (ticks_armed_lt T k h' _ _ _ Ha) as (_ & E & _). congruence.
  - intros k Hk. replace d' with (S (d' - 1)) in Ha by lia.
    apply (ticks_armed_ge T h' _ _ (d' - 1) k Ha). lia.
Qed.

Lemma useDebounce_delay_change_rearms_witness :
  Debounce.debouncedValue
    (Debounce.ticks 5
       (Debounce.useDebounce String.eqb "a" 5
          (Debounce.useDebounce String.eqb "a" 300
             (Debounce.mount "" 300 (Timers.empty string)))))
  = "a".
Proof.
  refine (proj2 (proj2
    (useDebounce_delay_change_rearms string String.eqb
       (Debounce.useDebounce String.eqb "a" 300
          (Debounce.mount "" 300 (Timers.empty string))) 5 _ _ _ _)) 5 _).
  - apply wf_useDebounce. apply wf_mount. reflexivity.
  - simpl. lia.
  - lia.
  - unfold TimerRange.in_range, TimerRange.max_delay. vm_compute. discriminate.
  - lia.
Defined.

(** ** How a submission ends *)

Section SubmissionFacts.

Import Async App Submission.

Variable srv : request -> option response.

Lemma truthy_or_else (e : JS.value) (msg : string) :
  msg <> "" -> JS.truthy (JS.or_else e (JS.VStr msg)) = true.
Proof.
  intros Hne. unfold JS.or_else. destruct (JS.truthy e) eqn:E; [exact E|].
  now apply truthy_str.
Qed.

(** The [try] statement ends in one of two ways: a summary stored, or a
    truthy error stored; the console is written to exactly when the [try]
    block threw. *)
Lemma exec_outcome (d : string) (c : cells) :
  ((succeeded srv d = true /\
    exists sm, fst (exec srv (try_statement d) c) =
               setIsLoading false (setSummary sm c))
   \/ (succeeded srv d = false /\
       exists e, JS.truthy e = true /\
                 fst (exec srv (try_statement d) c) =
                 setIsLoading false (setError e c)))
  /\ existsb logs_console (snd (exec srv (try_statement d) c)) = threw srv d
  /\ (threw srv d = true ->
      fst (exec srv (try_statement d) c) =
      setIsLoading false (setError (JS.VStr msg_network_failed) c)).
Proof.
  unfold succeeded, threw.
  destruct (srv (summary_request d)) as [resp|] eqn:Hs.
  2:{ rewrite (exec_fetch_rejected srv d c Hs). simpl.
      split; [right; split; [reflexivity|];
              exists (JS.VStr msg_network_failed); split; reflexivity|].
      split; reflexivity. }
  destruct (json resp) as [data|] eqn:Hj.
  2:{ rewrite (exec_json_rejected srv d c resp Hs Hj). simpl.
      split; [right; split; [reflexivity|];
              exists (JS.VStr msg_network_failed); split; reflexivity|].
      split; reflexivity. }
  destruct (JS.getProp data "success") as [s|] eqn:Hg.
  2:{ rewrite (exec_null_body srv d c resp data Hs Hj Hg). simpl.
      split; [right; split; [reflexivity|];
              exists (JS.VStr msg_network_failed); split; reflexivity|].
      split; reflexivity. }
  destruct (JS.truthy s) eqn:Ht.
  - destruct (getProp_defined data "success" "summary" s Hg) as [sm Hsm].
    rewrite (exec_success srv d c resp data s sm Hs Hj Hg Ht Hsm). simpl.
    split; [left; split; [reflexivity|]; now exists sm|].
    split; [reflexivity | discriminate].
  - destruct (getProp_defined data "success" "error" s Hg) as [e He].
    rewrite (exec_failure srv d c resp data s e Hs Hj Hg Ht He). simpl.
    split; [|split; [reflexivity | discriminate]].
    right. split; [reflexivity|].
    exists (JS.or_else e (JS.VStr msg_summary_failed)). split; [|reflexivity].
    apply truthy_or_else. discriminate.
Qed.

End SubmissionFacts.

(** X4. Validity only looks at the front: a valid URL has at least the 30
    characters of the literal and stays valid whatever is typed after it,
    and nothing shorter than the literal is valid. *)
Theorem isValidBiliUrl_extends :
  (forall url : string,
      isValidBiliUrl url = true ->
      30 <= String.length url /\
      forall more : string, isValidBiliUrl (url ++ more) = true)
  /\ (forall url : string, String.length url < 30 -> isValidBiliUrl url = false).
Proof.
  assert (Hlen : forall url, isValidBiliUrl url = true -> 30 <= String.length url).
  { intros url Hv. apply startsWith_iff in Hv as [suffix ->].
    rewrite length_append. simpl. lia. }
  split.
  - intros url Hv. split; [now apply Hlen|].
    intros more. apply startsWith_iff in Hv as [suffix ->].
    apply startsWith_iff. exists (suffix ++ more).
    clear. induction bili_prefix as [|ch p IH]; simpl; [reflexivity | now rewrite IH].
  - intros url Hshort. destruct (isValidBiliUrl url) eqn:E; [|reflexivity].
    apply Hlen in E. lia.
Qed.

Lemma isValidBiliUrl_extends_witness :
  isValidBiliUrl ("https://www.bilibili.com/video/BV1" ++ "?p=2") = true.
Proof.
  refine (proj2 (proj1 isValidBiliUrl_extends "https://www.bilibili.com/video/BV1" _)
            "?p=2").
  reflexivity.
Defined.

(** ** What React makes of the result area *)

Section PaintFacts.

Import App Paint.

Variable markdown_renders : JS.value -> bool.

Lemma paint_loading (c : cells) :
  isLoading c = true -> paint markdown_renders c = Painted [Spinner] (stray c).
Proof.
  intros Hl. unfold paint. rewrite Hl. simpl.
  destruct (JS.truthy (error c)), (JS.truthy (summary c)); reflexivity.
Qed.

Lemma paint_idle (c : cells) :
  isLoading c = false ->
  paint markdown_renders c =
  if broken markdown_renders c then Crashed
  else Painted (result_panels c) (stray c).
Proof.
  intros Hl. unfold paint, broken, result_panels. rewrite Hl. simpl.
  destruct (JS.truthy (error c)), (child_ok (error c)),
    (JS.truthy (summary c)), (markdown_renders (summary c)); reflexivity.
Qed.

(** When the error and the summary are not both non-empty, the panels of
    the two guards are the one panel of the top-down selector. *)
Lemma result_panels_selector (c : cells) :
  isLoading c = false ->
  ~ (JS.truthy (error c) = true /\ JS.truthy (summary c) = true) ->
  result_panels c = only (spec_selector c).
Proof.
  intros Hl Hnot. unfold result_panels, spec_selector. rewrite Hl.
  destruct (JS.truthy (error c)), (JS.truthy (summary c)); try reflexivity.
  exfalso. apply Hnot. auto.
Qed.

Lemma paint_selector (c : cells) :
  (isLoading c = true \/
   ~ (JS.truthy (error c) = true /\ JS.truthy (summary c) = true)) ->
  paint markdown_renders c = Crashed \/
  paint markdown_renders c = Painted (only (spec_selector c)) (stray c).
Proof.
  intros H. destruct (isLoading c) eqn:Hl.
  - right. rewrite (paint_loading c Hl). unfold spec_selector. now rewrite Hl.
  - destruct H as [H | H]; [discriminate|].
    rewrite (paint_idle c Hl). destruct (broken markdown_renders c); [now left|].
    right. now rewrite (result_panels_selector c Hl H).
Qed.

Lemma stray_of_strings (c : cells) (e s : string) :
  error c = JS.VStr e -> summary c = JS.VStr s -> stray c = [].
Proof.
  intros He Hs. unfold stray, guard_text. rewrite He, Hs.
  destruct e, s; reflexivity.
Qed.

End PaintFacts.

(** X6. After a submission that passed both checks has run to its end:
    when it did not succeed the submission error is non-empty and Summary
    is empty, and the page shows the error panel alone, or throws while
    rendering when the error the server sent is an object; when it
    succeeded the submission error is empty. Either way, unless the render
    throws, the panels are those the top-down selector picks, whatever was
    on screen before. *)
Theorem finished_submission_shows_its_outcome
    (markdown_renders : JS.value -> bool)
    (srv : Async.request -> option Async.response) (c : App.cells) (d : string) :
  d <> "" -> isValidBiliUrl d = true ->
  let c' := fst (App.exec srv (App.handleSubmit d) c) in
  (Submission.succeeded srv d = false ->
   JS.truthy (App.error c') = true /\ App.summary c' = JS.VStr "" /\
   Paint.paint markdown_renders c' =
     (if Paint.child_ok (App.error c')
      then Paint.Painted [App.ErrorPanel] []
      else Paint.Crashed))
  /\ (Submission.succeeded srv d = true ->
      App.error c' = JS.VStr "" /\ App.isLoading c' = false)
  /\ (Paint.paint markdown_renders c' = Paint.Crashed \/
      Paint.paint markdown_renders c' =
        Paint.Painted (App.only (App.spec_selector c')) (Paint.stray c')).
Proof.
  intros Hne Hok c'. unfold c'.
  rewrite (exec_handleSubmit_valid srv d c Hne Hok). cbn [fst].
  destruct (exec_outcome srv d (App.started c))
    as ([[Hs (sm & ->)] | [Hs (e & He & ->)]] & _).
  - split; [intros H; congruence|]. split; [intros _; split; reflexivity|].
    apply paint_selector. right. simpl. intros [H _]. discriminate H.
  - split; [|split; [intros H; congruence|]].
    + intros _. split; [exact He|]. split; [reflexivity|].
      rewrite paint_idle by reflexivity.
      unfold Paint.broken, Paint.result_panels, Paint.stray, Paint.guard_text.
      simpl. rewrite He. simpl.
      destruct (Paint.child_ok e); reflexivity.
    + apply paint_selector. right. simpl. intros [_ H]. discriminate H.
Qed.

Lemma finished_submission_shows_its_outcome_witness :
  Paint.paint Paint.strings_only
    (fst (App.exec (fun _ => Some {| Async.json := Some JS.VNull |})
            (App.handleSubmit "https://www.bilibili.com/video/BV1")
            (App.setSummary (JS.VStr "old") (App.st App.init))))
  = Paint.Painted [App.ErrorPanel] [].
Proof.
  refine (proj2 (proj2 (proj1
    (finished_submission_shows_its_outcome Paint.strings_only
       (fun _ => Some {| Async.json := Some JS.VNull |})
       (App.setSummary (JS.VStr "old") (App.st App.init))
       "https://www.bilibili.com/video/BV1" _ _) _))).
  - discriminate.
  - reflexivity.
  - reflexivity.
Defined.

(** A server that reports its failure with an object: the page throws while
    rendering the error panel. *)
Example object_error_breaks_render :
  Paint.paint Paint.strings_only
    (fst (App.exec
            (fun _ => Some {| Async.json := Some (JS.VObj
               [("success", JS.VBool false);
                ("error", JS.VObj [("code", JS.VStr "E1")])]) |})
            (App.handleSubmit "https://www.bilibili.com/video/BV1")
            (App.st App.init)))
  = Paint.Crashed.
Proof. reflexivity. Qed.

(** A summary of 0 is falsy: no panel, and a bare 0 on the page. *)
Example zero_summary_is_bare_text :
  Paint.paint Paint.strings_only
    (fst (App.exec
            (fun _ => Some {| Async.json := Some (JS.VObj
               [("success", JS.VBool true);
                ("summary", JS.VNum (S754_zero false))]) |})
            (App.handleSubmit "https://www.bilibili.com/video/BV1")
            (App.st App.init)))
  = Paint.Painted [] [JS.VNum (S754_zero false)].
Proof. reflexivity. Qed.

(** X7. A submission that passes both checks starts from a clean slate:
    the cells it ends with and everything it does depend on the input text
    and the validation error only, not on the Loading flag, the summary or
    the error left by earlier submissions. *)
Theorem resubmission_forgets_previous_result
    (srv : Async.request -> option Async.response) (c1 c2 : App.cells) (d : string) :
  d <> "" -> isValidBiliUrl d = true ->
  App.url c1 = App.url c2 -> App.urlError c1 = App.urlError c2 ->
  App.exec srv (App.handleSubmit d) c1 = App.exec srv (App.handleSubmit d) c2.
Proof.
  intros Hne Hok Hu He.
  rewrite (exec_handleSubmit_valid srv d c1 Hne Hok),
          (exec_handleSubmit_valid srv d c2 Hne Hok).
  replace (App.started c2) with (App.started c1); [reflexivity|].
  unfold App.started, App.setSummary, App.setError, App.setIsLoading. simpl.
  now rewrite Hu, He.
Qed.

Lemma resubmission_forgets_previous_result_witness :
  App.exec (fun _ => None) (App.handleSubmit "https://www.bilibili.com/video/BV1")
    (App.setSummary (JS.VStr "old") (App.setError (JS.VStr "boom") (App.st App.init)))
  = App.exec (fun _ => None) (App.handleSubmit "https://www.bilibili.com/video/BV1")
      (App.st App.init).
Proof.
  refine (resubmission_forgets_previous_result (fun _ => None)
            (App.setSummary (JS.VStr "old")
               (App.setError (JS.VStr "boom") (App.st App.init)))
            (App.st App.init) "https://www.bilibili.com/video/BV1" _ _ _ _).
  - discriminate.
  - reflexivity.
  - reflexivity.
  - reflexivity.
Defined.

(** X8. The console is written to exactly when the [try] block threw
    ([fetch] rejected, the body was not JSON, or the body was [null]), and
    then the submission error is the network-failure message; a failure
    the server reports in the body is shown but not logged. *)
Theorem console_error_only_for_exceptions
    (srv : Async.request -> option Async.response) (c : App.cells) (d : string) :
  d <> "" -> isValidBiliUrl d = true ->
  existsb Submission.logs_console (snd (App.exec srv (App.handleSubmit d) c))
    = Submission.threw srv d
  /\ (Submission.threw srv d = true ->
      App.error (fst (App.exec srv (App.handleSubmit d) c)) =
      JS.VStr App.msg_network_failed).
Proof.
  intros Hne Hok.
  rewrite (exec_handleSubmit_valid srv d c Hne Hok). cbn [fst snd].
  destruct (exec_outcome srv d (App.started c)) as (_ & Hlog & Hthrew).
  split.
  - rewrite existsb_app. simpl. exact Hlog.
  - intros Ht. rewrite (Hthrew Ht). reflexivity.
Qed.

Lemma console_error_only_for_exceptions_witness :
  existsb Submission.logs_console
    (snd (App.exec
            (fun _ => Some {| Async.json := Some (JS.VObj
               [("success", JS.VBool false); ("error", JS.VStr "boom")]) |})
            (App.handleSubmit "https://www.bilibili.com/video/BV1")
            (App.st App.init)))
  = false.
Proof.
  refine (proj1 (console_error_only_for_exceptions
            (fun _ => Some {| Async.json := Some (JS.VObj
               [("success", JS.VBool false); ("error", JS.VStr "boom")]) |})
            (App.st App.init) "https://www.bilibili.com/video/BV1" _ _)).
  - discriminate.
  - reflexivity.
Defined.

(** ** Sessions of the component *)

Section SessionFacts.

Import Async App Sessions.

Lemma valid_nonempty (d : string) : isValidBiliUrl d = true -> d <> "".
Proof. intros H ->. discriminate H. Qed.

Lemma result_flush (m : component) :
  result_state (flushEffects m) = result_state m.
Proof.
  unfold result_state, flushEffects. destruct (effect_due m); [|reflexivity].
  simpl. destruct (validationEffect_frame (debouncedUrl m) (st m))
    as (_ & -> & -> & -> & _). reflexivity.
Qed.

Lemma result_submit_valid (m : component) :
  isValidBiliUrl (debouncedUrl m) = true ->
  result_state (submit m) =
    (true, JS.VStr "", JS.VStr "",
     (inflight m ++ [try_statement (debouncedUrl m)])%list)
  /\ st (submit m) =
     st (flushEffects {| st := started (st m); deb := deb m;
                         effect_due := effect_due m; inflight := inflight m |}).
Proof.
  intros Hok. unfold submit.
  rewrite (handleSubmit_valid _ (valid_nonempty _ Hok) Hok).
  cbn [run_sync apply_action]. fold (started (st m)).
  change (run_sync (try_statement (debouncedUrl m)) (started (st m)))
    with (started (st m), @nil effect, try_statement (debouncedUrl m)).
  cbv iota beta. split.
  - rewrite result_flush. reflexivity.
  - unfold flushEffects. simpl. destruct (effect_due m); reflexivity.
Qed.

Lemma result_submit_invalid (m : component) :
  isValidBiliUrl (debouncedUrl m) = false ->
  exists msg, msg <> "" /\
    result_state (submit m) =
      (isLoading (st m), summary (st m), JS.VStr msg, inflight m).
Proof.
  intros Hbad. unfold submit.
  destruct (string_dec (debouncedUrl m) "") as [E | Hne].
  - exists msg_empty_input. split; [discriminate|].
    rewrite E. rewrite handleSubmit_empty. cbn [run_sync apply_action].
    cbv iota beta. rewrite result_flush. reflexivity.
  - exists msg_invalid_format. split; [discriminate|].
    rewrite (handleSubmit_invalid _ Hne Hbad). cbn [run_sync apply_action].
    cbv iota beta. rewrite result_flush. reflexivity.
Qed.

Lemma result_resume_rejected (i : nat) (d : string) (m : component) :
  result_state (resume i (after_fetch d None) m) =
    (false, summary (st m), JS.VStr msg_network_failed,
     replace_nth i (Ret tt) (inflight m)).
Proof. unfold resume. simpl. rewrite result_flush. reflexivity. Qed.

Lemma result_resume_resolved (i : nat) (d : string) (resp : response)
    (m : component) :
  result_state (resume i (after_fetch d (Some resp)) m) =
    (isLoading (st m), summary (st m), error (st m),
     replace_nth i (after_fetch d (Some resp)) (inflight m)).
Proof. unfold resume. simpl. rewrite result_flush. reflexivity. Qed.

Lemma result_resume_body (i : nat) (d : string) (resp : response)
    (o : option JS.value) (m : component) :
  (exists sm,
      result_state (resume i (after_json d resp o) m) =
        (false, sm, error (st m), replace_nth i (Ret tt) (inflight m)))
  \/ (exists e, JS.truthy e = true /\
        result_state (resume i (after_json d resp o) m) =
          (false, summary (st m), e, replace_nth i (Ret tt) (inflight m))).
Proof.
  unfold resume.
  assert (Hnet : JS.truthy (JS.VStr msg_network_failed) = true) by reflexivity.
  destruct o as [data|].
  2:{ right. exists (JS.VStr msg_network_failed). split; [exact Hnet|].
      simpl. rewrite result_flush. reflexivity. }
  unfold after_json, after_fetch, try_statement, try_block, await_fetch, await_json, get.
  simpl.
  destruct (JS.getProp data "success") as [s|] eqn:Hg.
  2:{ right. exists (JS.VStr msg_network_failed). split; [exact Hnet|].
      simpl. rewrite result_flush. reflexivity. }
  simpl. destruct (JS.truthy s).
  - destruct (getProp_defined data "success" "summary" s Hg) as [sm ->].
    left. exists sm. simpl. rewrite result_flush. reflexivity.
  - destruct (getProp_defined data "success" "error" s Hg) as [e ->].
    right. exists (JS.or_else e (JS.VStr msg_summary_failed)).
    split; [apply truthy_or_else; discriminate|].
    simpl. rewrite result_flush. reflexivity.
Qed.

(** The events that are not submissions and not settling promises leave
    Loading, Summary, the submission error and the handlers in flight as
    they are. *)
Lemma result_quiet_step (m m' : component) (e : event) :
  match e with
  | Change _ | Tick | FlushEffects => True
  | _ => False
  end ->
  step m e = Some m' -> result_state m' = result_state m.
Proof.
  intros He Hstep. destruct e as [v | | | | | i o | i]; try contradiction;
    unfold step in Hstep.
  - destruct (input_disabled (screen m)); [discriminate|].
    injection Hstep as <-.
    pose proof (result_flush m) as E. unfold result_state in *. simpl.
    injection E as E1 E2 E3 E4. now rewrite E1, E2, E3, E4.
  - destruct (String.eqb _ _); injection Hstep as <-; [reflexivity|].
    pose proof (result_flush m) as E. unfold result_state in *. simpl.
    injection E as E1 E2 E3 E4. now rewrite E1, E2, E3.
  - injection Hstep as <-. apply result_flush.
Qed.

End SessionFacts.

Section FlightFacts.

Import Async App Sessions.

Lemma nth_error_single (p q : prog unit) (i : nat) :
  nth_error [p] i = Some q -> i = 0 /\ q = p.
Proof.
  destruct i as [|i]; simpl.
  - intros E. injection E as <-. auto.
  - destruct i; discriminate.
Qed.

(** With the validation effect run, an enabled button means a valid
    debounced URL and no request under way. *)
Lemma enabled_button_valid (m : component) :
  validated m -> effect_due m = false ->
  submit_disabled (screen m) = false ->
  isLoading (st m) = false /\ isValidBiliUrl (debouncedUrl m) = true.
Proof.
  intros Hv Hd Hb. specialize (Hv Hd).
  unfold screen, render in Hb. simpl in Hb.
  apply orb_false_iff in Hb as [Hb Hu]. apply orb_false_iff in Hb as [Hl Ht].
  split; [exact Hl|].
  apply negb_false_iff in Ht. rewrite negb_involutive in Hu.
  apply truthy_str in Ht. apply truthy_str_false in Hu.
  destruct (isValidBiliUrl (debouncedUrl m)) eqn:E; [reflexivity|].
  exfalso. rewrite Hv in Hu.
  apply (proj2 (expected_urlError_nonempty (debouncedUrl m))); auto.
Qed.

Lemma enabled_button_idle (m : component) :
  submit_disabled (screen m) = false -> isLoading (st m) = false.
Proof.
  unfold screen, render. simpl. intros Hb.
  apply orb_false_iff in Hb as [Hb _]. now apply orb_false_iff in Hb as [Hl _].
Qed.

Ltac fields H :=
  unfold result_state in H; injection H as ?El ?Es ?Ee ?Ef.

Lemma single_flight_step (m m' : component) (e : event) :
  single_flight m -> from_page e = true -> step m e = Some m' ->
  single_flight m'.
Proof.
  intros Hinv He Hstep.
  destruct e as [v | | | | | i o | i]; try discriminate He.
  - pose proof (result_quiet_step m m' (Change v) I Hstep) as E. fields E.
    unfold single_flight. rewrite El, Ef. exact Hinv.
  - pose proof (result_quiet_step m m' Tick I Hstep) as E. fields E.
    unfold single_flight. rewrite El, Ef. exact Hinv.
  - pose proof (result_quiet_step m m' FlushEffects I Hstep) as E. fields E.
    unfold single_flight. rewrite El, Ef. exact Hinv.
  - unfold step in Hstep.
    destruct (submit_disabled (screen m)) eqn:Hb; [discriminate|].
    injection Hstep as <-. apply enabled_button_idle in Hb.
    destruct Hinv as [[Hfl _] | (p & _ & _ & Hl)]; [|congruence].
    destruct (isValidBiliUrl (debouncedUrl m)) eqn:Hv.
    + destruct (result_submit_valid m Hv) as [E _]. fields E.
      right. exists (try_statement (debouncedUrl m)).
      rewrite Ef, Hfl, El. repeat split. constructor.
    + destruct (result_submit_invalid m Hv) as (msg & _ & E). fields E.
      left. rewrite Ef, El. auto.
  - unfold step in Hstep.
    destruct (nth_error (inflight m) i) as [q|] eqn:En; [|discriminate].
    destruct Hinv as [[Hfl _] | (p & Hfl & Hp & Hl)];
      rewrite Hfl in En; [destruct i; discriminate|].
    apply nth_error_single in En as [-> ->].
    destruct Hp as [d | d resp]; [|discriminate].
    simpl in Hstep. injection Hstep as <-.
    change (single_flight (resume 0 (after_fetch d o) m)).
    destruct o as [resp|].
    + pose proof (result_resume_resolved 0 d resp m) as E. fields E.
      right. exists (after_fetch d (Some resp)).
      rewrite Ef, Hfl, El. repeat split; [constructor | exact Hl].
    + pose proof (result_resume_rejected 0 d m) as E. fields E.
      left. rewrite Ef, Hfl, El. auto.
  - unfold step in Hstep.
    destruct (nth_error (inflight m) i) as [q|] eqn:En; [|discriminate].
    destruct Hinv as [[Hfl _] | (p & Hfl & Hp & Hl)];
      rewrite Hfl in En; [destruct i; discriminate|].
    apply nth_error_single in En as [-> ->].
    destruct Hp as [d | d resp]; [discriminate|].
    simpl in Hstep. injection Hstep as <-.
    change (single_flight (resume 0 (after_json d resp (json resp)) m)).
    left.
    destruct (result_resume_body 0 d resp (json resp) m)
      as [(sm & E) | (e & _ & E)]; fields E; rewrite Ef, Hfl, El; auto.
Qed.

Lemma single_flight_run (evs : list event) : forall m m',
  single_flight m -> forallb from_page evs = true ->
  run evs m = Some m' -> single_flight m'.
Proof.
  induction evs as [|e evs IH]; intros m m' Hinv Hev Hrun; simpl in Hrun.
  - now injection Hrun as <-.
  - simpl in Hev. apply andb_true_iff in Hev as [He Hev].
    destruct (step m e) as [m1|] eqn:E; [|discriminate].
    eapply IH; [|exact Hev|exact Hrun].
    eapply single_flight_step; eassumption.
Qed.

Lemma clean_flight_step (m m' : component) (e : event) :
  clean_flight m -> validated m ->
  from_page e = true -> (is_submit e = true -> effect_due m = false) ->
  step m e = Some m' -> clean_flight m'.
Proof.
  intros Hinv Hval He Hsub Hstep.
  destruct e as [v | | | | | i o | i]; try discriminate He.
  - pose proof (result_quiet_step m m' (Change v) I Hstep) as E. fields E.
    unfold clean_flight. rewrite El, Es, Ee, Ef. exact Hinv.
  - pose proof (result_quiet_step m m' Tick I Hstep) as E. fields E.
    unfold clean_flight. rewrite El, Es, Ee, Ef. exact Hinv.
  - pose proof (result_quiet_step m m' FlushEffects I Hstep) as E. fields E.
    unfold clean_flight. rewrite El, Es, Ee, Ef. exact Hinv.
  - unfold step in Hstep.
    destruct (submit_disabled (screen m)) eqn:Hb; [discriminate|].
    injection Hstep as <-.
    destruct (enabled_button_valid m Hval (Hsub eq_refl) Hb) as [Hl Hv].
    destruct Hinv as [(Hfl & _) | (p & _ & _ & Hl' & _)]; [|congruence].
    destruct (result_submit_valid m Hv) as [E _]. fields E.
    right. exists (try_statement (debouncedUrl m)).
    rewrite Ef, Hfl, El, Ee, Es. repeat split. constructor.
  - unfold step in Hstep.
    destruct (nth_error (inflight m) i) as [q|] eqn:En; [|discriminate].
    destruct Hinv as [(Hfl & _) | (p & Hfl & Hp & Hl & Her & Hsm)];
      rewrite Hfl in En; [destruct i; discriminate|].
    apply nth_error_single in En as [-> ->].
    destruct Hp as [d | d resp]; [|discriminate].
    simpl in Hstep. injection Hstep as <-.
    change (clean_flight (resume 0 (after_fetch d o) m)).
    destruct o as [resp|].
    + pose proof (result_resume_resolved 0 d resp m) as E. fields E.
      right. exists (after_fetch d (Some resp)).
      rewrite Ef, Hfl, El, Ee, Es. repeat split; try assumption. constructor.
    + pose proof (result_resume_rejected 0 d m) as E. fields E.
      left. rewrite Ef, Hfl, El, Ee, Es, Hsm. repeat split.
      intros [_ H]. discriminate H.
  - unfold step in Hstep.
    destruct (nth_error (inflight m) i) as [q|] eqn:En; [|discriminate].
    destruct Hinv as [(Hfl & _) | (p & Hfl & Hp & Hl & Her & Hsm)];
      rewrite Hfl in En; [destruct i; discriminate|].
    apply nth_error_single in En as [-> ->].
    destruct Hp as [d | d resp]; [discriminate|].
    simpl in Hstep. injection Hstep as <-.
    change (clean_flight (resume 0 (after_json d resp (json resp)) m)).
    left.
    destruct (result_resume_body 0 d resp (json resp) m)
      as [(sm & E) | (e & _ & E)]; fields E; rewrite Ef, Hfl, El, Ee, Es.
    + rewrite Her. repeat split. intros [H _]. discriminate H.
    + rewrite Hsm. repeat split. intros [_ H]. discriminate H.
Qed.

Lemma run_settled_run (evs : list event) : forall m m',
  run_settled evs m = Some m' -> run evs m = Some m'.
Proof.
  induction evs as [|e evs IH]; intros m m' H; simpl in *; [exact H|].
  destruct (negb (from_page e) || (is_submit e && effect_due m)); [discriminate|].
  destruct (step m e) as [m1|]; [now apply IH | discriminate].
Qed.

Lemma clean_flight_run (evs : list event) : forall m m',
  clean_flight m -> validated m ->
  run_settled evs m = Some m' -> clean_flight m'.
Proof.
  induction evs as [|e evs IH]; intros m m' Hinv Hval Hrun; simpl in Hrun.
  - now injection Hrun as <-.
  - destruct (negb (from_page e) || (is_submit e && effect_due m)) eqn:G;
      [discriminate|].
    apply orb_false_iff in G as [G1 G2]. apply negb_false_iff in G1.
    destruct (step m e) as [m1|] eqn:E; [|discriminate].
    eapply IH; [| |exact Hrun].
    + eapply clean_flight_step; try eassumption.
      intros Hs. rewrite Hs in G2. exact G2.
    + eapply step_validated; eassumption.
Qed.

End FlightFacts.

(** X9. In a session of page events (keystrokes, time, effects, the submit
    button, settling promises; the button possibly activated before the
    validation effect has run), at most one handler is ever waiting, and
    Loading is true exactly while one is. *)
Theorem one_request_at_a_time (evs : list App.event) (m : App.component) :
  forallb Sessions.from_page evs = true ->
  App.run evs App.init = Some m ->
  length (App.inflight m) <= 1
  /\ (App.isLoading (App.st m) = true <-> App.inflight m <> []).
Proof.
  intros Hev Hrun.
  assert (H0 : Sessions.single_flight App.init) by (left; split; reflexivity).
  destruct (single_flight_run evs _ _ H0 Hev Hrun)
    as [[Hfl Hl] | (p & Hfl & _ & Hl)]; rewrite Hfl, Hl; simpl.
  - split; [lia|]. split; [discriminate | congruence].
  - split; [lia|]. split; [discriminate | reflexivity].
Qed.

Lemma one_request_at_a_time_witness :
  exists m, App.run App.session_click App.init = Some m /\
            length (App.inflight m) <= 1.
Proof.
  assert (Hrun : exists m, App.run App.session_click App.init = Some m)
    by (eexists; vm_compute; reflexivity).
  destruct Hrun as [m Hrun]. exists m. split; [exact Hrun|].
  exact (proj1 (one_request_at_a_time App.session_click m eq_refl Hrun)).
Defined.

(** X10. In a session of page events in which the button is only activated
    once the validation effect has run, the submission error and Summary
    are never both non-empty and both are empty while Loading is true; so
    whenever the render does not throw, the panels on screen are those the
    top-down selector picks. *)
Theorem settled_sessions_show_one_panel
    (markdown_renders : JS.value -> bool)
    (evs : list App.event) (m : App.component) :
  Sessions.run_settled evs App.init = Some m ->
  App.run evs App.init = Some m
  /\ ~ (JS.truthy (App.error (App.st m)) = true /\
        JS.truthy (App.summary (App.st m)) = true)
  /\ (App.isLoading (App.st m) = true ->
      App.error (App.st m) = JS.VStr "" /\ App.summary (App.st m) = JS.VStr "")
  /\ (Paint.paint markdown_renders (App.st m) = Paint.Crashed \/
      Paint.paint markdown_renders (App.st m) =
        Paint.Painted (App.only (App.spec_selector (App.st m)))
                      (Paint.stray (App.st m))).
Proof.
  intros Hrun. split; [now apply run_settled_run|].
  assert (H0 : Sessions.clean_flight App.init).
  { left. repeat split. intros [H _]. discriminate H. }
  assert (Hv0 : App.validated App.init) by (intros _; reflexivity).
  destruct (clean_flight_run evs _ _ H0 Hv0 Hrun)
    as [(_ & Hl & Hnot) | (p & _ & _ & Hl & He & Hs)].
  - split; [exact Hnot|]. split; [congruence|].
    apply paint_selector. now right.
  - split; [rewrite He; intros [H _]; discriminate H|]. split; [auto|].
    apply paint_selector. now left.
Qed.

Lemma settled_sessions_show_one_panel_witness :
  exists m, Sessions.run_settled Sessions.session_plain App.init = Some m /\
            (Paint.paint Paint.strings_only (App.st m) = Paint.Crashed \/
             Paint.paint Paint.strings_only (App.st m) =
               Paint.Painted (App.only (App.spec_selector (App.st m)))
                             (Paint.stray (App.st m))).
Proof.
  assert (Hrun : exists m, Sessions.run_settled Sessions.session_plain App.init = Some m)
    by (eexists; vm_compute; reflexivity).
  destruct Hrun as [m Hrun]. exists m. split; [exact Hrun|].
  exact (proj2 (proj2 (proj2
    (settled_sessions_show_one_panel Paint.strings_only
       Sessions.session_plain m Hrun)))).
Defined.

(** X11. In every state the component can reach, once the validation
    effect has run: the submit button is enabled exactly when no request is
    under way and the debounced URL passes the validator, and the line
    under the input shows the prefix message exactly when the debounced URL
    is non-empty and fails the validator, and nothing otherwise. *)
Theorem submit_button_gate (m : App.component) :
  App.reachable m -> App.effect_due m = false ->
  (App.submit_disabled (App.screen m) = false <->
   App.isLoading (App.st m) = false /\ isValidBiliUrl (App.debouncedUrl m) = true)
  /\ App.url_error_text (App.screen m) =
       (if negb (String.eqb (App.debouncedUrl m) "")
           && negb (isValidBiliUrl (App.debouncedUrl m))
        then Some App.msg_url_prefix else None).
Proof.
  intros Hr Hd. pose proof (reachable_validated m Hr) as Hv.
  split.
  - split; [now apply enabled_button_valid|].
    intros [Hl Hok]. specialize (Hv Hd).
    unfold App.screen, App.render. simpl. rewrite Hl, Hv.
    unfold App.expected_urlError, App.validationEffect. rewrite Hok.
    rewrite andb_false_r. simpl.
    apply valid_nonempty in Hok. apply truthy_str in Hok.
    change (JS.truthy (JS.VStr (App.debouncedUrl m))) with
      (negb (Nat.eqb (String.length (App.debouncedUrl m)) 0)) in Hok.
    rewrite Hok. reflexivity.
  - specialize (Hv Hd). unfold App.screen, App.render. cbn [App.url_error_text].
    rewrite Hv. unfold App.expected_urlError, App.validationEffect.
    destruct (App.debouncedUrl m) as [|ch d] eqn:Ed; [reflexivity|].
    simpl. destruct (isValidBiliUrl (String ch d)); reflexivity.
Qed.

Lemma submit_button_gate_witness :
  App.submit_disabled (App.screen App.init) = false <->
  App.isLoading (App.st App.init) = false /\
  isValidBiliUrl (App.debouncedUrl App.init) = true.
Proof.
  refine (proj1 (submit_button_gate App.init _ _)).
  - exists []. reflexivity.
  - reflexivity.
Defined.

(** X12. In every state the component can reach, once the validation effect
    has run, activating the button never ends at one of the two checks: it
    sets Loading, empties the submission error and Summary, and leaves one
    more handler waiting on a request for the debounced URL (not for the
    text in the input, which may be ahead of it). *)
Theorem button_submit_starts_request (m m' : App.component) :
  App.reachable m -> App.effect_due m = false ->
  App.step m App.Submit = Some m' ->
  App.st m' = App.started (App.st m)
  /\ App.inflight m' =
       (App.inflight m ++ [App.try_statement (App.debouncedUrl m)])%list
  /\ (exists k, App.try_statement (App.debouncedUrl m) =
                Async.AwaitFetch (App.summary_request (App.debouncedUrl m)) k)
  /\ App.deb m' = App.deb m.
Proof.
  intros Hr Hd Hstep. unfold App.step in Hstep.
  destruct (App.submit_disabled (App.screen m)) eqn:Hb; [discriminate|].
  injection Hstep as <-.
  destruct (enabled_button_valid m (reachable_validated m Hr) Hd Hb) as [_ Hok].
  destruct (result_submit_valid m Hok) as [E Est].
  unfold Sessions.result_state in E. injection E as _ _ _ Ef.
  split; [|split; [exact Ef|split; [eexists; reflexivity | apply submit_deb]]].
  rewrite Est. unfold App.flushEffects. simpl. rewrite Hd. reflexivity.
Qed.

Lemma button_submit_starts_request_witness :
  exists m m',
    App.run (App.Change "https://www.bilibili.com/video/BV1"
               :: repeat App.Tick 300 ++ [App.FlushEffects])%list App.init = Some m /\
    App.step m App.Submit = Some m' /\
    App.st m' = App.started (App.st m).
Proof.
  assert (Hrun : exists m,
             App.run (App.Change "https://www.bilibili.com/video/BV1"
                        :: repeat App.Tick 300 ++ [App.FlushEffects])%list App.init
             = Some m /\ App.effect_due m = false /\
             exists m', App.step m App.Submit = Some m').
  { eexists. split; [vm_compute; reflexivity|]. split; [reflexivity|].
    eexists. vm_compute. reflexivity. }
  destruct Hrun as (m & Hrun & Hd & m' & Hstep).
  exists m, m'. split; [exact Hrun|]. split; [exact Hstep|].
  exact (proj1 (button_submit_starts_request m m' (ex_intro _ _ Hrun) Hd Hstep)).
Defined.

Lemma quiet_run_result (evs : list App.event) : forall m m',
  forallb Sessions.is_quiet evs = true ->
  App.run evs m = Some m' ->
  Sessions.result_state m' = Sessions.result_state m.
Proof.
  induction evs as [|e evs IH]; intros m m' Hev Hrun; simpl in Hrun.
  - now injection Hrun as <-.
  - simpl in Hev. apply andb_true_iff in Hev as [He Hev].
    destruct (App.step m e) as [m1|] eqn:E; [|discriminate].
    rewrite (IH _ _ Hev Hrun).
    apply (result_quiet_step m m1 e); [|exact E].
    destruct e; try discriminate He; exact I.
Qed.

(** X13. Typing, the passing of time and the effects alone never start a
    request and never change what the result area shows: over any run of
    such events Loading, Summary, the submission error and the handlers
    waiting are what they were. *)
Theorem typing_never_submits (evs : list App.event) (m m' : App.component) :
  forallb Sessions.is_quiet evs = true ->
  App.run evs m = Some m' ->
  App.isLoading (App.st m') = App.isLoading (App.st m)
  /\ App.summary (App.st m') = App.summary (App.st m)
  /\ App.error (App.st m') = App.error (App.st m)
  /\ App.inflight m' = App.inflight m
  /\ App.shown (App.screen m') = App.shown (App.screen m).
Proof.
  intros Hev Hrun. pose proof (quiet_run_result evs m m' Hev Hrun) as E.
  unfold Sessions.result_state in E. injection E as El Es Ee Ef.
  repeat split; try assumption.
  unfold App.shown, App.screen, App.render. simpl. now rewrite El, Es, Ee.
Qed.

Lemma typing_never_submits_witness :
  exists m',
    App.run (App.Change "bili" :: repeat App.Tick 300 ++ [App.FlushEffects])%list
            App.init = Some m' /\
    App.inflight m' = App.inflight App.init.
Proof.
  assert (Hrun : exists m',
             App.run (App.Change "bili" :: repeat App.Tick 300
                        ++ [App.FlushEffects])%list App.init = Some m')
    by (eexists; vm_compute; reflexivity).
  destruct Hrun as [m' Hrun]. exists m'. split; [exact Hrun|].
  exact (proj1 (proj2 (proj2 (proj2
    (typing_never_submits
       (App.Change "bili" :: repeat App.Tick 300 ++ [App.FlushEffects])%list
       App.init m' eq_refl Hrun))))).
Defined.

(** ** The markdown components *)

Section MarkdownFacts.

Import Markdown.

Lemma lookup_app (key : string) (p q : props) :
  JS.lookup key (p ++ q) =
  match JS.lookup key p with
  | Some v => Some v
  | None => JS.lookup key q
  end.
Proof.
  induction p as [|[k v] p IH]; simpl; [reflexivity|].
  destruct (String.eqb k key); [reflexivity | exact IH].
Qed.

Lemma lookup_without (key drop : string) (p : props) :
  JS.lookup key (without drop p) =
  if String.eqb key drop then None else JS.lookup key p.
Proof.
  induction p as [|[k v] p IH]; simpl.
  - destruct (String.eqb key drop); reflexivity.
  - destruct (String.eqb k drop) eqn:Ed; simpl.
    + rewrite IH. apply String.eqb_eq in Ed. subst k.
      destruct (String.eqb key drop) eqn:Ek; [reflexivity|].
      rewrite String.eqb_sym, Ek. reflexivity.
    + destruct (String.eqb k key) eqn:Ek.
      * apply String.eqb_eq in Ek. subst k. rewrite Ed. reflexivity.
      * exact IH.
Qed.

(** The props of an element with one written attribute and a spread. *)
Lemma lookup_spread_over (key k0 : string) (v0 : JS.value) (p : props) :
  JS.lookup key (spread_over [(k0, v0)] p) =
  match JS.lookup key p with
  | Some v => Some v
  | None => if String.eqb k0 key then Some v0 else None
  end.
Proof.
  unfold spread_over. rewrite lookup_app.
  destruct (JS.lookup key p) as [v|] eqn:E; [reflexivity|].
  simpl. unfold has_key. simpl.
  destruct (JS.lookup k0 p) as [w|] eqn:E0; simpl.
  - destruct (String.eqb k0 key) eqn:Ek; [|reflexivity].
    apply String.eqb_eq in Ek. subst k0. congruence.
  - reflexivity.
Qed.

End MarkdownFacts.

(** X14. The [code] component: when the props carry no [className] the
    element gets the inline style, and when they carry one the element gets
    exactly that one, since the spread comes after the written attribute.
    So the block style of the source is on the element only when the
    caller passed that very string. *)
Theorem code_className_follows_props (p : Markdown.props) :
  (JS.lookup "className" p = None ->
   JS.lookup "className" (Markdown.attrs (Markdown.code p)) =
     Some (JS.VStr Markdown.inline_code_style))
  /\ (forall v, JS.lookup "className" p = Some v ->
                JS.lookup "className" (Markdown.attrs (Markdown.code p)) = Some v)
  /\ (JS.lookup "className" (Markdown.attrs (Markdown.code p)) =
        Some (JS.VStr Markdown.block_code_style) ->
      JS.lookup "className" p = Some (JS.VStr Markdown.block_code_style)).
Proof.
  assert (Hw : JS.lookup "className" (Markdown.without "node" p) =
               JS.lookup "className" p)
    by (rewrite lookup_without; reflexivity).
  assert (Hall : JS.lookup "className" (Markdown.attrs (Markdown.code p)) =
                 match JS.lookup "className" p with
                 | Some v => Some v
                 | None => Some (JS.VStr Markdown.inline_code_style)
                 end).
  { unfold Markdown.code, Markdown.className_of. rewrite Hw.
    destruct (JS.lookup "className" p) as [v|] eqn:E.
    - destruct (negb (JS.truthy v)); simpl; rewrite lookup_spread_over, Hw;
        reflexivity.
    - simpl. rewrite lookup_spread_over, Hw. reflexivity. }
  rewrite Hall. split; [intros ->; reflexivity|]. split.
  - intros v ->. reflexivity.
  - destruct (JS.lookup "className" p) as [v|]; [auto|]. intros H. discriminate H.
Qed.

Lemma code_className_follows_props_witness :
  JS.lookup "className"
    (Markdown.attrs
       (Markdown.code [("node", JS.VNull); ("className", JS.VStr "language-js");
                       ("children", JS.VStr "let x")]))
  = Some (JS.VStr "language-js").
Proof.
  refine (proj1 (proj2 (code_className_follows_props
            [("node", JS.VNull); ("className", JS.VStr "language-js");
             ("children", JS.VStr "let x")])) (JS.VStr "language-js") _).
  reflexivity.
Defined.

(** X15. Every component of the table renders the tag it is registered
    for, never passes [node] on, and passes every other property of its
    props on as it is; and when the props carry no [className] it sets the
    style the source gives that tag (for [code], the inline style). *)
Theorem components_forward_props
    (name : string) (f : Markdown.props -> Markdown.element) (p : Markdown.props) :
  In (name, f) Markdown.components ->
  Markdown.tag (f p) = name
  /\ JS.lookup "node" (Markdown.attrs (f p)) = None
  /\ (forall key v, key <> "node" -> JS.lookup key p = Some v ->
                    JS.lookup key (Markdown.attrs (f p)) = Some v)
  /\ (forall key, key <> "node" -> key <> "className" -> JS.lookup key p = None ->
                  JS.lookup key (Markdown.attrs (f p)) = None)
  /\ (JS.lookup "className" p = None ->
      exists cls,
        JS.lookup "className" (Markdown.attrs (f p)) = Some (JS.VStr cls) /\
        In (name, cls)
           [("h1", "text-2xl font-bold mb-4 mt-6");
            ("h2", "text-xl font-bold mb-3 mt-5");
            ("h3", "text-lg font-semibold mb-2 mt-4");
            ("p", "mb-4 text-gray-700 leading-relaxed");
            ("ul", "list-disc list-inside mb-4 space-y-2");
            ("ol", "list-decimal list-inside mb-4 space-y-2");
            ("li", "text-gray-700");
            ("code", "bg-gray-100 text-red-600 px-1 py-0.5 rounded text-sm");
            ("blockquote",
             "border-l-4 border-indigo-500 pl-4 italic text-gray-600 my-4");
            ("strong", "font-bold text-gray-900");
            ("em", "italic text-gray-700")]).
Proof.
  intros Hin.
  set (styles :=
         [("h1", "text-2xl font-bold mb-4 mt-6");
          ("h2", "text-xl font-bold mb-3 mt-5");
          ("h3", "text-lg font-semibold mb-2 mt-4");
          ("p", "mb-4 text-gray-700 leading-relaxed");
          ("ul", "list-disc list-inside mb-4 space-y-2");
          ("ol", "list-decimal list-inside mb-4 space-y-2");
          ("li", "text-gray-700");
          ("code", "bg-gray-100 text-red-600 px-1 py-0.5 rounded text-sm");
          ("blockquote",
           "border-l-4 border-indigo-500 pl-4 italic text-gray-600 my-4");
          ("strong", "font-bold text-gray-900");
          ("em", "italic text-gray-700")]).
  assert (Hshape : (exists cls, f = Markdown.styled name cls /\ In (name, cls) styles)
                   \/ (name = "code" /\ f = Markdown.code)).
  { simpl in Hin.
    repeat (destruct Hin as [Hin | Hin];
            [injection Hin as <- <-;
             first [ right; split; reflexivity
                   | left; eexists; split;
                     [reflexivity
                     | unfold styles; simpl;
                       repeat (first [left; reflexivity | right])] ]|]).
    contradiction. }
  assert (Hkey : forall key, key <> "node" ->
            JS.lookup key (Markdown.without "node" p) = JS.lookup key p).
  { intros key Hk. rewrite lookup_without.
    destruct (String.eqb key "node") eqn:E; [|reflexivity].
    apply String.eqb_eq in E. contradiction. }
  assert (Hnode : JS.lookup "node" (Markdown.without "node" p) = None)
    by (rewrite lookup_without; reflexivity).
  assert (Hattrs : exists cls,
            Markdown.tag (f p) = name /\
            Markdown.attrs (f p) =
              Markdown.spread_over [("className", JS.VStr cls)]
                (Markdown.without "node" p) /\
            (JS.lookup "className" p = None -> In (name, cls) styles)).
  { destruct Hshape as [(cls & -> & Hcls) | [-> ->]].
    - exists cls. repeat split. intros _. exact Hcls.
    - unfold Markdown.code, Markdown.className_of.
      rewrite (Hkey "className") by discriminate.
      destruct (JS.lookup "className" p) as [v|] eqn:E.
      + destruct (negb (JS.truthy v)); eexists; repeat split; discriminate.
      + simpl. exists Markdown.inline_code_style. repeat split.
        intros _. unfold styles. simpl. repeat (first [left; reflexivity | right]). }
  destruct Hattrs as (cls & Htag & -> & Hcls).
  split; [exact Htag|]. split; [|split; [|split]].
  - rewrite lookup_spread_over, Hnode. reflexivity.
  - intros key v Hk E. rewrite lookup_spread_over, (Hkey key Hk), E. reflexivity.
  - intros key Hk Hc E. rewrite lookup_spread_over, (Hkey key Hk), E.
    destruct (String.eqb "className" key) eqn:Ek; [|reflexivity].
    apply String.eqb_eq in Ek. congruence.
  - intros E. exists cls. split; [|exact (Hcls E)].
    rewrite lookup_spread_over, (Hkey "className"), E; [reflexivity | discriminate].
Qed.

Lemma components_forward_props_witness :
  exists cls,
    JS.lookup "className"
      (Markdown.attrs
         (Markdown.styled "h2" "text-xl font-bold mb-3 mt-5"
            [("node", JS.VNull); ("children", JS.VStr "Hi")]))
    = Some (JS.VStr cls) /\
    In ("h2", cls)
       [("h1", "text-2xl font-bold mb-4 mt-6");
        ("h2", "text-xl font-bold mb-3 mt-5");
        ("h3", "text-lg font-semibold mb-2 mt-4");
        ("p", "mb-4 text-gray-700 leading-relaxed");
        ("ul", "list-disc list-inside mb-4 space-y-2");
        ("ol", "list-decimal list-inside mb-4 space-y-2");
        ("li", "text-gray-700");
        ("code", "bg-gray-100 text-red-600 px-1 py-0.5 rounded text-sm");
        ("blockquote",
         "border-l-4 border-indigo-500 pl-4 italic text-gray-600 my-4");
        ("strong", "font-bold text-gray-900");
        ("em", "italic text-gray-700")].
Proof.
  exact (proj2 (proj2 (proj2 (proj2 (components_forward_props "h2"
           (Markdown.styled "h2" "text-xl font-bold mb-3 mt-5")
           [("node", JS.VNull); ("children", JS.VStr "Hi")]
           (or_intror (or_introl eq_refl)))))) eq_refl).
Defined.

(** ** The request body determines the URL *)

Section JsonFacts.

Lemma append_assoc_string (a b c : string) : (a ++ b) ++ c = a ++ (b ++ c).
Proof. induction a as [|ch a IH]; simpl; [reflexivity | now rewrite IH]. Qed.

(** One quoted character is read back as itself. *)
Lemma read_quote_char (c : ascii) (tail : string) (r : option string) :
  JsonRead.read_chars tail = r ->
  JsonRead.read_chars (Json.quote_char c ++ tail) = option_map (String c) r.
Proof.
  intros <-.
  destruct c as [b0 b1 b2 b3 b4 b5 b6 b7];
    destruct b0, b1, b2, b3, b4, b5, b6, b7; reflexivity.
Qed.

Lemma read_quote_chars (s tail : string) :
  JsonRead.read_chars (Json.quote_chars s ++ String Json.dquote tail) = Some s.
Proof.
  induction s as [|c s IH]; [reflexivity|].
  simpl Json.quote_chars. rewrite append_assoc_string.
  rewrite (read_quote_char c _ _ IH). reflexivity.
Qed.

Lemma quote_chars_injective (s1 s2 tail1 tail2 : string) :
  Json.quote_chars s1 ++ String Json.dquote tail1 =
  Json.quote_chars s2 ++ String Json.dquote tail2 -> s1 = s2.
Proof.
  intros E.
  pose proof (read_quote_chars s1 tail1) as R1.
  rewrite E, read_quote_chars in R1. now injection R1.
Qed.

End JsonFacts.

(** X16. The request body names the debounced URL without ambiguity,
    whatever characters it holds (quotes, backslashes, control characters):
    the string between the quotes reads back as the URL, and two URLs with
    the same body are the same URL. *)
Theorem request_body_determines_url :
  (forall d : string,
      exists front,
        Async.body (App.summary_request d) =
          front ++ Json.quote_chars d ++ String Json.dquote "}" /\
        front = "{" ++ Json.quoted "url" ++ ":" ++ String Json.dquote "" /\
        JsonRead.read_chars (Json.quote_chars d ++ String Json.dquote "}") = Some d)
  /\ (forall d1 d2 : string,
        Async.body (App.summary_request d1) = Async.body (App.summary_request d2) ->
        d1 = d2).
Proof.
  assert (Hbody : forall d,
            Async.body (App.summary_request d) =
            ("{" ++ Json.quoted "url" ++ ":" ++ String Json.dquote "")
              ++ Json.quote_chars d ++ String Json.dquote "}").
  { intros d. unfold App.summary_request, Json.stringify, Json.members, Json.quote.
    simpl. rewrite append_assoc_string. reflexivity. }
  split.
  - intros d. eexists. split; [apply Hbody|]. split; [reflexivity|].
    apply read_quote_chars.
  - intros d1 d2 E. rewrite !Hbody in E. simpl in E.
    injection E as E. now apply quote_chars_injective in E.
Qed.

Lemma request_body_determines_url_witness :
  JsonRead.read_chars
    (Json.quote_chars
       (String Json.dquote (String Json.backslash (String (ascii_of_nat 1) "x")))
     ++ String Json.dquote "}")
  = Some (String Json.dquote (String Json.backslash (String (ascii_of_nat 1) "x"))).
Proof.
  destruct (proj1 request_body_determines_url
              (String Json.dquote (String Json.backslash (String (ascii_of_nat 1) "x"))))
    as (front & _ & _ & H).
  exact H.
Defined.

(** ** Orderly sessions *)

Section OrderlyFacts.

Import Async App Sessions Orderly.

Ltac cells_of H :=
  unfold result_state in H; injection H as ?El ?Es ?Ee ?Ef.

Lemma clean_flight_orderly_step (m m' : component) (e : event) :
  clean_flight m ->
  (starts_submission e = true -> may_submit m = true) ->
  step m e = Some m' -> clean_flight m'.
Proof.
  intros Hinv Hsub Hstep.
  assert (Hstart : may_submit m = true -> clean_flight (submit m)).
  { intros Hmay. unfold may_submit in Hmay.
    apply andb_true_iff in Hmay as [Hv Hl]. apply negb_true_iff in Hl.
    destruct Hinv as [(Hfl & _) | (p & _ & _ & Hl' & _)]; [|congruence].
    destruct (result_submit_valid m Hv) as [E _]. cells_of E.
    right. exists (try_statement (debouncedUrl m)).
    rewrite Ef, Hfl, El, Ee, Es. repeat split. constructor. }
  destruct e as [v | | | | | i o | i].
  - pose proof (result_quiet_step m m' (Change v) I Hstep) as E. cells_of E.
    unfold clean_flight. rewrite El, Es, Ee, Ef. exact Hinv.
  - pose proof (result_quiet_step m m' Tick I Hstep) as E. cells_of E.
    unfold clean_flight. rewrite El, Es, Ee, Ef. exact Hinv.
  - pose proof (result_quiet_step m m' FlushEffects I Hstep) as E. cells_of E.
    unfold clean_flight. rewrite El, Es, Ee, Ef. exact Hinv.
  - unfold step in Hstep.
    destruct (submit_disabled (screen m)); [discriminate|].
    injection Hstep as <-. apply Hstart. now apply Hsub.
  - unfold step in Hstep. injection Hstep as <-. apply Hstart. now apply Hsub.
  - unfold step in Hstep.
    destruct (nth_error (inflight m) i) as [q|] eqn:En; [|discriminate].
    destruct Hinv as [(Hfl & _) | (p & Hfl & Hp & Hl & Her & Hsm)];
      rewrite Hfl in En; [destruct i; discriminate|].
    apply nth_error_single in En as [-> ->].
    destruct Hp as [d | d resp]; [|discriminate].
    simpl in Hstep. injection Hstep as <-.
    change (clean_flight (resume 0 (after_fetch d o) m)).
    destruct o as [resp|].
    + pose proof (result_resume_resolved 0 d resp m) as E. cells_of E.
      right. exists (after_fetch d (Some resp)).
      rewrite Ef, Hfl, El, Ee, Es. repeat split; try assumption. constructor.
    + pose proof (result_resume_rejected 0 d m) as E. cells_of E.
      left. rewrite Ef, Hfl, El, Ee, Es, Hsm. repeat split.
      intros [_ H]. discriminate H.
  - unfold step in Hstep.
    destruct (nth_error (inflight m) i) as [q|] eqn:En; [|discriminate].
    destruct Hinv as [(Hfl & _) | (p & Hfl & Hp & Hl & Her & Hsm)];
      rewrite Hfl in En; [destruct i; discriminate|].
    apply nth_error_single in En as [-> ->].
    destruct Hp as [d | d resp]; [discriminate|].
    simpl in Hstep. injection Hstep as <-.
    change (clean_flight (resume 0 (after_json d resp (json resp)) m)).
    left.
    destruct (result_resume_body 0 d resp (json resp) m)
      as [(sm & E) | (e & _ & E)]; cells_of E; rewrite Ef, Hfl, El, Ee, Es.
    + rewrite Her. repeat split. intros [H _]. discriminate H.
    + rewrite Hsm. repeat split. intros [_ H]. discriminate H.
Qed.

Lemma run_orderly_run (evs : list event) : forall m m',
  run_orderly evs m = Some m' -> run evs m = Some m'.
Proof.
  induction evs as [|e evs IH]; intros m m' H; simpl in *; [exact H|].
  destruct (starts_submission e && negb (may_submit m)); [discriminate|].
  destruct (step m e) as [m1|]; [now apply IH | discriminate].
Qed.

Lemma clean_flight_orderly_run (evs : list event) : forall m m',
  clean_flight m -> run_orderly evs m = Some m' -> clean_flight m'.
Proof.
  induction evs as [|e evs IH]; intros m m' Hinv Hrun; simpl in Hrun.
  - now injection Hrun as <-.
  - destruct (starts_submission e && negb (may_submit m)) eqn:G; [discriminate|].
    destruct (step m e) as [m1|] eqn:E; [|discriminate].
    eapply IH; [|exact Hrun].
    eapply clean_flight_orderly_step; try eassumption.
    intros Hs. rewrite Hs in G. simpl in G. now apply negb_false_iff in G.
Qed.

End OrderlyFacts.

(** C5, amended. What the result area shows follows from three separate
    guards. With Loading true it is the spinner alone. With Loading false
    the render throws when the error is an object (or the summary is
    something the markdown library does not render), and otherwise shows
    the error panel exactly when the submission error is non-empty and the
    summary panel exactly when Summary is non-empty; with both cells
    strings it never throws. So the panels are the one the top-down
    selector picks, except that the error panel and the summary panel are
    shown together when both cells are non-empty with Loading false.
    In every state reached by a session in which no submission is stopped
    at one of the two checks and none is started while another is pending,
    the two cells are never both non-empty and both are empty while Loading
    is true: there the panels are always those of the top-down selector. *)
Theorem panels_by_precedence_in_orderly_sessions
    (markdown_renders : JS.value -> bool) :
  (forall s : string, markdown_renders (JS.VStr s) = true) ->
  (forall c : App.cells,
      (App.isLoading c = true ->
       Paint.paint markdown_renders c = Paint.Painted [App.Spinner] (Paint.stray c))
      /\ (App.isLoading c = false ->
          Paint.paint markdown_renders c =
            if Paint.broken markdown_renders c then Paint.Crashed
            else Paint.Painted (Paint.result_panels c) (Paint.stray c))
      /\ (forall panels bare,
            Paint.paint markdown_renders c = Paint.Painted panels bare ->
            panels = App.only (App.spec_selector c)
            \/ (App.isLoading c = false /\
                JS.truthy (App.error c) = true /\
                JS.truthy (App.summary c) = true /\
                panels = [App.ErrorPanel; App.SummaryPanel]))
      /\ (forall e s d,
            App.error c = JS.VStr e -> App.summary c = JS.VStr s ->
            Paint.paint markdown_renders c =
              Paint.Painted (App.shown (App.render c d)) []))
  /\ (forall (evs : list App.event) (m : App.component),
        Orderly.run_orderly evs App.init = Some m ->
        App.run evs App.init = Some m
        /\ ~ (JS.truthy (App.error (App.st m)) = true /\
              JS.truthy (App.summary (App.st m)) = true)
        /\ (App.isLoading (App.st m) = true ->
            App.error (App.st m) = JS.VStr "" /\
            App.summary (App.st m) = JS.VStr "")
        /\ (Paint.paint markdown_renders (App.st m) = Paint.Crashed \/
            Paint.paint markdown_renders (App.st m) =
              Paint.Painted (App.only (App.spec_selector (App.st m)))
                            (Paint.stray (App.st m)))).
Proof.
  intros Hmd. split.
  - intros c. split; [apply paint_loading|]. split; [apply paint_idle|]. split.
    + intros panels bare Hp. destruct (App.isLoading c) eqn:Hl.
      * rewrite (paint_loading markdown_renders c Hl) in Hp.
        injection Hp as <- _. left. unfold App.spec_selector. now rewrite Hl.
      * rewrite (paint_idle markdown_renders c Hl) in Hp.
        destruct (Paint.broken markdown_renders c); [discriminate|].
        injection Hp as <- _.
        unfold Paint.result_panels, App.spec_selector. rewrite Hl.
        destruct (JS.truthy (App.error c)), (JS.truthy (App.summary c));
          auto.
    + intros e s d He Hs.
      rewrite <- (stray_of_strings c e s He Hs).
      destruct (App.isLoading c) eqn:Hl.
      * rewrite (paint_loading markdown_renders c Hl).
        unfold App.shown, App.render. simpl. rewrite Hl.
        rewrite !andb_false_r. reflexivity.
      * rewrite (paint_idle markdown_renders c Hl).
        unfold Paint.broken, Paint.result_panels, App.shown, App.render. simpl.
        rewrite Hl, He, Hs, Hmd. simpl. rewrite !andb_false_r, !andb_true_r.
        reflexivity.
  - intros evs m Hrun. split; [now apply run_orderly_run|].
    assert (H0 : Sessions.clean_flight App.init).
    { left. repeat split. intros [H _]. discriminate H. }
    destruct (clean_flight_orderly_run evs _ _ H0 Hrun)
      as [(_ & Hl & Hnot) | (p & _ & _ & Hl & He & Hs)].
    + split; [exact Hnot|]. split; [congruence|].
      apply paint_selector. now right.
    + split; [rewrite He; intros [H _]; discriminate H|]. split; [auto|].
      apply paint_selector. now left.
Qed.

Lemma panels_by_precedence_in_orderly_sessions_witness :
  exists m,
    Orderly.run_orderly Sessions.session_plain App.init = Some m /\
    (Paint.paint Paint.strings_only (App.st m) = Paint.Crashed \/
     Paint.paint Paint.strings_only (App.st m) =
       Paint.Painted (App.only (App.spec_selector (App.st m)))
                     (Paint.stray (App.st m))).
Proof.
  assert (Hrun : exists m,
             Orderly.run_orderly Sessions.session_plain App.init = Some m)
    by (eexists; vm_compute; reflexivity).
  destruct Hrun as [m Hrun]. exists m. split; [exact Hrun|].
  refine (proj2 (proj2 (proj2
    (proj2 (panels_by_precedence_in_orderly_sessions Paint.strings_only _)
       Sessions.session_plain m Hrun)))).
  intros s. reflexivity.
Defined.

(** The session of [session_click], which ends after a submission stopped
    at the second check, is painted with both panels. *)
Example session_click_painted :
  exists m,
    App.run App.session_click App.init = Some m /\
    Orderly.run_orderly App.session_click App.init = None /\
    Paint.paint Paint.strings_only (App.st m) =
      Paint.Painted [App.ErrorPanel; App.SummaryPanel] [].
Proof.
  eexists. split; [vm_compute; reflexivity|]. split; vm_compute; reflexivity.
Qed.
